(** * Particle core of tsparticles: a shallow embedding of
      engine/src/Core/Particle.ts and the properties of its placement,
      construction and destruction code.

    JavaScript numbers are modelled as exact rationals ([Q]): every
    property below is about comparisons, sums and products of the
    configured values, not about rounding.  A call of [Math.random()] is
    modelled by an oracle: a record of draws, one field per call site,
    each draw being a rational of the unit interval [0, 1). *)

From Stdlib Require Import ZArith QArith Qminmax Qround List String Bool Lia Lqa.
Import ListNotations.

Local Open Scope Q_scope.

(* ------------------------------------------------------------------ *)
(** ** Numbers *)

Module JSNum.

(** [a < b], [a > b] and [a >= b] on numbers. *)
Definition ltb (a b : Q) : bool := negb (Qle_bool b a).
Definition gtb (a b : Q) : bool := ltb b a.
Definition geb (a b : Q) : bool := Qle_bool b a.

(** A draw of [Math.random()]. *)
Definition unit_draw (u : Q) : Prop := 0 <= u /\ u < 1.

End JSNum.

(* ------------------------------------------------------------------ *)
(** ** Helpers of Utils/NumberUtils and Utils/Utils

    The helpers the particle code imports from these two files, as far
    as it calls them. *)

(** A value that is either a single item or an array of candidates. *)
Inductive SingleOrMultiple (A : Type) : Type :=
| Single (a : A)
| Multiple (l : list A).
Arguments Single {A} a.
Arguments Multiple {A} l.

(** [number | { min, max }] *)
Inductive RangeValue : Type :=
| RNumber (v : Q)
| RRange (rmin rmax : Q).

Record ICoordinates : Type := { cx : Q; cy : Q }.

Record Vector3d : Type := { vx : Q; vy : Q; vz : Q }.

Record IDimension : Type := { width : Q; height : Q }.

Module Vector3d_.
Definition create (x y z : Q) : Vector3d := {| vx := x; vy := y; vz := z |}.
Definition copy (v : Vector3d) : Vector3d := create (vx v) (vy v) (vz v).
Definition set_x (x : Q) (v : Vector3d) : Vector3d := create x (vy v) (vz v).
Definition set_y (y : Q) (v : Vector3d) : Vector3d := create (vx v) y (vz v).
End Vector3d_.

Module NumberUtils.

(** Modelled from the spec: getRangeMin and getRangeMax (NumberUtils) give
    the lower and upper end of a range value, a plain number being both
    of its own ends. *)
Definition getRangeMin (r : RangeValue) : Q :=
  match r with RNumber v => v | RRange a _ => a end.

Definition getRangeMax (r : RangeValue) : Q :=
  match r with RNumber v => v | RRange _ b => b end.

(** Modelled from the spec: randomInRange (NumberUtils) samples uniformly
    within [min, max]; [u] is the draw of [Math.random()] it consumes. *)
Definition randomInRange (r : RangeValue) (u : Q) : Q :=
  u * (getRangeMax r - getRangeMin r) + getRangeMin r.

(** Modelled from the spec: getRangeValue (NumberUtils) is the value itself
    when it is fixed and a sample of the range otherwise. *)
Definition getRangeValue (r : RangeValue) (u : Q) : Q :=
  match r with RNumber v => v | RRange _ _ => randomInRange r u end.

(** Modelled from the spec: getValue (NumberUtils) computes the value of
    an option that is fixed or range-sampled. *)
Definition getValue (r : RangeValue) (u : Q) : Q := getRangeValue r u.

(** Modelled from the spec: clamp (NumberUtils) brings a number into
    [lo, hi]: [Math.min(Math.max(num, lo), hi)]. *)
Definition clamp (num lo hi : Q) : Q := Qmin (Qmax num lo) hi.

(** Modelled from the spec: calcExactPositionOrRandomFromSize (NumberUtils)
    uses the explicit position when the caller supplies one and samples
    (x, y) uniformly within the canvas otherwise; [u] holds the two
    draws. *)
Definition calcExactPositionOrRandomFromSize
    (size : IDimension) (position : option ICoordinates) (u : Q * Q)
  : ICoordinates :=
  match position with
  | Some p => {| cx := cx p; cy := cy p |}
  | None => {| cx := fst u * width size; cy := snd u * height size |}
  end.

(** Squared Euclidean distance between the (x, y) parts of two points. *)
Definition distanceSq (ax ay bx by_ : Q) : Q :=
  (ax - bx) * (ax - bx) + (ay - by_) * (ay - by_).

(** Modelled from the spec: getDistance (NumberUtils) is the Euclidean
    distance of two points.  The particle code only compares it with a
    sum of radii; on rationals [getDistance(a, b) < s] is decided without
    a square root: it holds exactly when [s] is positive and the squared
    distance is below [s * s]. *)
Definition getDistance_ltb (ax ay bx by_ : Q) (s : Q) : bool :=
  JSNum.ltb 0 s && JSNum.ltb (distanceSq ax ay bx by_) (s * s).

(** "The distance of the two points is at least [s]". *)
Definition distance_ge (ax ay bx by_ : Q) (s : Q) : Prop :=
  s <= 0 \/ s * s <= distanceSq ax ay bx by_.

End NumberUtils.

Module Utils.

(** Modelled from the spec: isInArray (Utils) tells whether a value is one
    of the given values, or is the given value. *)
Definition isInArray {A : Type} (eqb : A -> A -> bool) (value : A)
    (array : list A) : bool :=
  existsb (eqb value) array.

(** Modelled from the spec: arrayRandomIndex picks an index of the array
    from a draw [u] of [Math.random()]: [floor(u * length)]. *)
Definition arrayRandomIndex {A : Type} (array : list A) (u : Q) : Z :=
  Qfloor (u * inject_Z (Z.of_nat (List.length array))).

(** JavaScript's [array[i]]: [undefined] out of range. *)
Definition index {A : Type} (array : list A) (i : Z) : option A :=
  if (i <? 0)%Z then None else nth_error array (Z.to_nat i).

(** Modelled from the spec: itemFromArray (Utils) selects a candidate by
    index keyed on the particle id, modulo the array length; with
    "reduce duplicates" enabled, or without an index, it performs a
    random pick instead.  [Z.rem] is JavaScript's [%]. *)
Definition itemFromArray {A : Type} (array : list A) (idx : option Z)
    (reduceDuplicates : bool) (u : Q) : option A :=
  match idx with
  | Some i =>
      if reduceDuplicates then index array (arrayRandomIndex array u)
      else
        match array with
        | [] => None
        | _ => index array (Z.rem i (Z.of_nat (List.length array)))
        end
  | None => index array (arrayRandomIndex array u)
  end.

End Utils.

(* ------------------------------------------------------------------ *)
(** ** Enums *)

(** The values of the enum [OutMode]; the other spellings the options
    accept for them ([keyof typeof OutMode], [OutModeAlt]) are not told
    apart. *)
Inductive OutMode : Type :=
| OutMode_bounce
| OutMode_bounceHorizontal
| OutMode_bounceVertical
| OutMode_none
| OutMode_out
| OutMode_destroy
| OutMode_split.

Definition OutMode_eqb (a b : OutMode) : bool :=
  match a, b with
  | OutMode_bounce, OutMode_bounce
  | OutMode_bounceHorizontal, OutMode_bounceHorizontal
  | OutMode_bounceVertical, OutMode_bounceVertical
  | OutMode_none, OutMode_none
  | OutMode_out, OutMode_out
  | OutMode_destroy, OutMode_destroy
  | OutMode_split, OutMode_split => true
  | _, _ => false
  end.

Inductive DestroyMode : Type :=
| DestroyMode_none
| DestroyMode_split.

Inductive StartValueType : Type :=
| StartValueType_max
| StartValueType_min
| StartValueType_random.

Inductive AnimationStatus : Type :=
| AnimationStatus_increasing
| AnimationStatus_decreasing.

(** What a call can do: return, throw, or still be running when the fuel
    of the model is used up. *)
Inductive Outcome (A : Type) : Type :=
| Returned (a : A)
| Thrown (message : string)
| OutOfFuel.
Arguments Returned {A} a.
Arguments Thrown {A} message.
Arguments OutOfFuel {A}.

(** JavaScript truthiness of an optional string. *)
Definition truthy (s : option string) : bool :=
  match s with
  | Some s => negb (String.eqb s EmptyString)
  | None => false
  end.

(* ------------------------------------------------------------------ *)
(** ** fixOutMode *)

(** The argument of [fixOutMode]; the callback [setCb] assigns to the
    position under construction, here a state of type [S]. *)
Record FixOutModeData (S : Type) : Type := {
  checkModes : list OutMode;
  coord : Q;
  maxCoord : Q;
  outMode : OutMode;
  radius : Q;
  setCb : Q -> S -> S;
}.
Arguments checkModes {S} _.
Arguments coord {S} _.
Arguments maxCoord {S} _.
Arguments outMode {S} _.
Arguments radius {S} _.
Arguments setCb {S} _ _ _.

Definition fixOutMode {S : Type} (data : FixOutModeData S) (s : S) : S :=
  if negb (Utils.isInArray OutMode_eqb (outMode data) (checkModes data)
           || Utils.isInArray OutMode_eqb (outMode data) (checkModes data))
  then s
  else if JSNum.gtb (coord data) (maxCoord data - radius data * 2)
  then setCb data (- radius data) s
  else if JSNum.ltb (coord data) (radius data * 2)
  then setCb data (radius data) s
  else s.

(* ------------------------------------------------------------------ *)
(** ** Data model *)

Section Model.

(** [RecursivePartial<IParticlesOptions>]: a partial options object, as
    passed for overrides, shape specific options and split templates.
    The particle code reads its [shape] member and otherwise hands it to
    the options loader. *)
Context {Overrides : Type}.

Record IShapeValues : Type := {
  sv_fill : option bool;
  sv_close : option bool;
  sv_particles : option Overrides;
}.

Record IShape : Type := {
  shape_type : SingleOrMultiple string;
  shape_options : string -> option (SingleOrMultiple IShapeValues);
}.

(** [RecursivePartial<IShape>] *)
Record IShapeOverride : Type := {
  so_type : option (SingleOrMultiple string);
  so_options : option (string -> option (SingleOrMultiple IShapeValues));
}.

Record ISizeAnimation : Type := {
  anim_enable : bool;
  anim_startValue : StartValueType;
  anim_count : RangeValue;
  anim_decay : RangeValue;
  anim_sync : bool;
}.

Record ISize : Type := {
  size_value : RangeValue;
  size_animation : ISizeAnimation;
}.

Record IOverlap : Type := {
  overlap_enable : bool;
  overlap_retries : Z;
}.

Record ICollisions : Type := {
  collisions_enable : bool;
  collisions_overlap : IOverlap;
}.

Record IOutModes : Type := {
  outModes_default : OutMode;
  outModes_left : option OutMode;
  outModes_right : option OutMode;
  outModes_top : option OutMode;
  outModes_bottom : option OutMode;
}.

Record ISplit : Type := {
  split_count : Z;
  split_rate : RangeValue;
  split_particles : option (SingleOrMultiple Overrides);
}.

Record IDestroy : Type := {
  destroy_mode : DestroyMode;
  destroy_split : ISplit;
}.

(** The members of [IParticlesOptions] the modelled code reads. *)
Record IParticlesOptions : Type := {
  opt_shape : IShape;
  opt_reduceDuplicates : bool;
  opt_size : ISize;
  opt_zIndex : RangeValue;
  opt_collisions : ICollisions;
  opt_outModes : IOutModes;  (* options.move.outModes *)
  opt_destroy : IDestroy;
}.

Record IBubbleParticleData : Type := {
  inRange : bool;
  bubble_radius : option Q;
}.

Record IParticleNumericValueAnimation : Type := {
  enable : bool;
  value : Q;
  max : Q;
  min : Q;
  loops : Z;
  maxLoops : Q;
  status : option AnimationStatus;
  decay : option Q;
  velocity : option Q;
}.

Record IParticleRetinaProps : Type := {
  sizeAnimationSpeed : option Q;
}.

(** The fields of [Particle] the modelled code reads or writes. *)
Record Particle : Type := {
  id : Z;
  group : option string;
  fill : bool;
  close : bool;
  lastPathTime : Q;
  destroyed : bool;
  unbreakable : bool;
  splitCount : Z;
  misplaced : bool;
  retina : IParticleRetinaProps;
  shape : option string;
  shapeData : option IShapeValues;
  options : IParticlesOptions;
  size : IParticleNumericValueAnimation;
  opacity : option IParticleNumericValueAnimation;
  bubble : IBubbleParticleData;
  position : Vector3d;
  initialPosition : Vector3d;
  spawning : bool;
}.

(** A container plugin: its optional hooks.  [particlePosition] answers
    with a position or with [undefined]; the two other hooks return
    nothing, so a plugin only says whether it has them and a call is
    recorded as an [Event], with the particle as it is handed over.
    What a hook does with the particle it is handed, and what it raises,
    is the plugin's and not modelled: the properties below are about the
    particle's own code, relative to what the hooks answer. *)
Record IContainerPlugin : Type := {
  particlePosition :
    option (option ICoordinates -> Particle -> option ICoordinates);
  particleCreated : bool;
  particleDestroyed : bool;
}.

(** Calls into the collaborators of the particle, in the order made. *)
Inductive Event : Type :=
| Ev_updaterInit (i : nat) (particle : Particle)
| Ev_moverInit (i : nat) (particle : Particle)
| Ev_particleCreated (plugin : string) (particle : Particle)
| Ev_particleDestroyed (plugin : string) (particle : Particle)
    (override : option bool)
| Ev_addSplitParticle (parent : Particle) (splitOptions : option Overrides).

Record Retina : Type := {
  pixelRatio : Q;
  retina_sizeAnimationSpeed : Q;
  reduceFactor : Q;
  (** what [initParticle] stores in the particle's own [retina] *)
  initParticle : IParticlesOptions -> IParticleRetinaProps;
}.

(** The particle set of the container; an updater or mover is given by
    whether it has an [init] hook. *)
Record Particles : Type := {
  needsSort : bool;
  lastZIndex : Q;
  array : list Particle;
  updaters : list bool;
  movers : list bool;
}.

Record Container : Type := {
  canvas_size : IDimension;
  container_retina : Retina;
  zLayers : Q;
  actualOptions_particles : IParticlesOptions;
  plugins : list (string * IContainerPlugin);
  particles : Particles;
}.

(** The draws of [Math.random()], one per call site; placement draws a
    fresh pair at every attempt. *)
Record Random : Type := {
  u_shape : Q;
  u_shapeOverride : Q;
  u_shapeData : Q;
  u_zIndex : Q;
  u_sizeValue : Q;
  u_sizeCount : Q;
  u_sizeDecay : Q;
  u_sizeStart : Q;
  u_sizeStatus : Q;
  u_sizeVelocity : Q;
  u_position : nat -> Q * Q;
  u_splitRate : Q;
  u_splitParticles : Q;
}.

(* ------------------------------------------------------------------ *)
(** ** Queries *)

Definition getRadius (this : Particle) : Q :=
  match bubble_radius (bubble this) with
  | Some r => r
  | None => value (size this)
  end.

(* ------------------------------------------------------------------ *)
(** ** Placement *)

Definition PlacementExhausted : string :=
  "Particle is overlapping and can't be placed".

Definition checkOverlap (this : Particle) (container : Container)
    (pos : Vector3d) (tryCount : nat) : Outcome bool :=
  let collisionsOptions := opt_collisions (options this) in
  let radius := getRadius this in
  if negb (collisions_enable collisionsOptions) then Returned false
  else
    let overlapOptions := collisions_overlap collisionsOptions in
    if overlap_enable overlapOptions then Returned false
    else
      let retries := overlap_retries overlapOptions in
      if ((retries >=? 0) && (Z.of_nat tryCount >? retries))%Z
      then Thrown PlacementExhausted
      else
        Returned
          (existsb
             (fun particle =>
                NumberUtils.getDistance_ltb
                  (vx pos) (vy pos)
                  (vx (position particle)) (vy (position particle))
                  (radius + getRadius particle))
             (array (particles container))).

(** The loop over the plugins at the head of [calcPosition]: the answer
    of the first plugin that has the hook and does not answer
    [undefined]. *)
Fixpoint pluginPosition (plugins : list (string * IContainerPlugin))
    (position : option ICoordinates) (this : Particle)
  : option ICoordinates :=
  match plugins with
  | [] => None
  | (_, plugin) :: rest =>
      let pluginPos :=
        match particlePosition plugin with
        | Some hook => hook position this
        | None => None
        end in
      match pluginPos with
      | Some p => Some p
      | None => pluginPosition rest position this
      end
  end.

Definition fixHorizontal (container : Container) (radius : Q)
    (outMode : OutMode) (pos : Vector3d) : Vector3d :=
  fixOutMode
    {| outMode := outMode;
       checkModes := [OutMode_bounce; OutMode_bounceHorizontal];
       coord := vx pos;
       maxCoord := width (canvas_size container);
       setCb := fun value p => Vector3d_.set_x (vx p + value) p;
       radius := radius |}
    pos.

Definition fixVertical (container : Container) (radius : Q)
    (outMode : OutMode) (pos : Vector3d) : Vector3d :=
  fixOutMode
    {| outMode := outMode;
       checkModes := [OutMode_bounce; OutMode_bounceVertical];
       coord := vy pos;
       maxCoord := height (canvas_size container);
       setCb := fun value p => Vector3d_.set_y (vy p + value) p;
       radius := radius |}
    pos.

(** [a ?? b] *)
Definition orElse {A : Type} (a : option A) (b : A) : A :=
  match a with Some x => x | None => b end.

(** The position of one attempt of [calcPosition], before the overlap
    check: the exact or sampled position, fixed for the four edges. *)
Definition candidate (container : Container) (this : Particle)
    (position : option ICoordinates) (zIndex : Q) (u : Q * Q) : Vector3d :=
  let canvasSize := canvas_size container in
  let exactPosition :=
    NumberUtils.calcExactPositionOrRandomFromSize canvasSize position u in
  let pos := Vector3d_.create (cx exactPosition) (cy exactPosition) zIndex in
  let radius := getRadius this in
  let outModes := opt_outModes (options this) in
  let pos :=
    fixHorizontal container radius
      (orElse (outModes_left outModes) (outModes_default outModes)) pos in
  let pos :=
    fixHorizontal container radius
      (orElse (outModes_right outModes) (outModes_default outModes)) pos in
  let pos :=
    fixVertical container radius
      (orElse (outModes_top outModes) (outModes_default outModes)) pos in
  fixVertical container radius
    (orElse (outModes_bottom outModes) (outModes_default outModes)) pos.

(** [calcPosition]; the recursion of the source is bounded by [fuel]. *)
Fixpoint calcPosition (fuel : nat) (this : Particle) (rnd : Random)
    (container : Container) (position : option ICoordinates) (zIndex : Q)
    (tryCount : nat) : Outcome Vector3d :=
  match fuel with
  | O => OutOfFuel
  | S fuel' =>
      match pluginPosition (plugins container) position this with
      | Some pluginPos =>
          Returned (Vector3d_.create (cx pluginPos) (cy pluginPos) zIndex)
      | None =>
          let pos :=
            candidate container this position zIndex
              (u_position rnd tryCount) in
          match checkOverlap this container pos tryCount with
          | Thrown e => Thrown e
          | OutOfFuel => OutOfFuel
          | Returned true =>
              calcPosition fuel' this rnd container None zIndex
                (S tryCount)
          | Returned false => Returned pos
          end
      end
  end.

(* ------------------------------------------------------------------ *)
(** ** Field updates *)

Definition set_destroyed (b : bool) (p : Particle) : Particle :=
  {| id := id p; group := group p; fill := fill p; close := close p;
     lastPathTime := lastPathTime p; destroyed := b;
     unbreakable := unbreakable p; splitCount := splitCount p;
     misplaced := misplaced p; retina := retina p; shape := shape p;
     shapeData := shapeData p; options := options p; size := size p;
     opacity := opacity p; bubble := bubble p; position := position p;
     initialPosition := initialPosition p; spawning := spawning p |}.

Definition set_splitCount (n : Z) (p : Particle) : Particle :=
  {| id := id p; group := group p; fill := fill p; close := close p;
     lastPathTime := lastPathTime p; destroyed := destroyed p;
     unbreakable := unbreakable p; splitCount := n;
     misplaced := misplaced p; retina := retina p; shape := shape p;
     shapeData := shapeData p; options := options p; size := size p;
     opacity := opacity p; bubble := bubble p; position := position p;
     initialPosition := initialPosition p; spawning := spawning p |}.

Definition set_bubble (b : IBubbleParticleData) (p : Particle) : Particle :=
  {| id := id p; group := group p; fill := fill p; close := close p;
     lastPathTime := lastPathTime p; destroyed := destroyed p;
     unbreakable := unbreakable p; splitCount := splitCount p;
     misplaced := misplaced p; retina := retina p; shape := shape p;
     shapeData := shapeData p; options := options p; size := size p;
     opacity := opacity p; bubble := b; position := position p;
     initialPosition := initialPosition p; spawning := spawning p |}.

Definition set_size (s : IParticleNumericValueAnimation) (p : Particle)
  : Particle :=
  {| id := id p; group := group p; fill := fill p; close := close p;
     lastPathTime := lastPathTime p; destroyed := destroyed p;
     unbreakable := unbreakable p; splitCount := splitCount p;
     misplaced := misplaced p; retina := retina p; shape := shape p;
     shapeData := shapeData p; options := options p; size := s;
     opacity := opacity p; bubble := bubble p; position := position p;
     initialPosition := initialPosition p; spawning := spawning p |}.

Definition set_opacity (o : option IParticleNumericValueAnimation)
    (p : Particle) : Particle :=
  {| id := id p; group := group p; fill := fill p; close := close p;
     lastPathTime := lastPathTime p; destroyed := destroyed p;
     unbreakable := unbreakable p; splitCount := splitCount p;
     misplaced := misplaced p; retina := retina p; shape := shape p;
     shapeData := shapeData p; options := options p; size := size p;
     opacity := o; bubble := bubble p; position := position p;
     initialPosition := initialPosition p; spawning := spawning p |}.

Definition set_loops (n : Z) (a : IParticleNumericValueAnimation)
  : IParticleNumericValueAnimation :=
  {| enable := enable a; value := value a; max := max a; min := min a;
     loops := n; maxLoops := maxLoops a; status := status a;
     decay := decay a; velocity := velocity a |}.

Definition set_inRange (b : bool) (d : IBubbleParticleData)
  : IBubbleParticleData :=
  {| inRange := b; bubble_radius := bubble_radius d |}.

(* ------------------------------------------------------------------ *)
(** ** Destruction and split *)

(** The body of the [for] loop of [split] runs for i = 0, 1, ... while
    [i < rate]: as many times as the least natural number that is not
    below [rate]. *)
Definition loopCount (rate : Q) : nat := Z.to_nat (Qceiling rate).

Definition split (rnd : Random) (this : Particle) : Particle * list Event :=
  let splitOptions := destroy_split (opt_destroy (options this)) in
  let fanOut (this : Particle) : Particle * list Event :=
    let rate :=
      NumberUtils.getValue (split_rate splitOptions) (u_splitRate rnd) in
    let particlesSplitOptions :=
      match split_particles splitOptions with
      | Some (Multiple l) =>
          Utils.itemFromArray l None false (u_splitParticles rnd)
      | Some (Single o) => Some o
      | None => None
      end in
    (this,
     repeat (Ev_addSplitParticle this particlesSplitOptions)
       (loopCount rate)) in
  if (split_count splitOptions >=? 0)%Z
  then
    (* [this.splitCount++ > splitOptions.count]: the old value is
       compared, the field is incremented in any case *)
    let old := splitCount this in
    let this := set_splitCount (old + 1)%Z this in
    if (old >? split_count splitOptions)%Z then (this, [])
    else fanOut this
  else fanOut this.

(** The calls of the [particleDestroyed] hooks, in plugin order. *)
Definition destroyedHooks (plugins : list (string * IContainerPlugin))
    (this : Particle) (override : option bool) : list Event :=
  flat_map
    (fun entry : string * IContainerPlugin =>
       if particleDestroyed (snd entry)
       then [Ev_particleDestroyed (fst entry) this override]
       else [])
    plugins.

Definition destroy (container : Container) (rnd : Random)
    (override : option bool) (this : Particle) : Particle * list Event :=
  if unbreakable this || destroyed this then (this, [])
  else
    let this := set_destroyed true this in
    let this := set_bubble (set_inRange false (bubble this)) this in
    let hooks := destroyedHooks (plugins container) this override in
    if orElse override false then (this, hooks)
    else
      let destroyOptions := opt_destroy (options this) in
      match destroy_mode destroyOptions with
      | DestroyMode_split =>
          let (this', requests) := split rnd this in
          (this', hooks ++ requests)
      | _ => (this, hooks)
      end.

Definition reset (this : Particle) : Particle :=
  let this :=
    match opacity this with
    | Some o => set_opacity (Some (set_loops 0%Z o)) this
    | None => this
    end in
  set_size (set_loops 0%Z (size this)) this.

Definition isChildRequest (e : Event) : bool :=
  match e with Ev_addSplitParticle _ _ => true | _ => false end.

(** The number of child particles a call requested from the set. *)
Definition children (events : list Event) : nat :=
  List.length (filter isChildRequest events).

(* ------------------------------------------------------------------ *)
(** ** Construction

    The options classes are collaborators of the particle: what they do
    with a partial options object is left open. *)

(** [overrideOptions.shape] *)
Variable ov_shape : Overrides -> option IShapeOverride.

(** [particlesOptions.load(data)] *)
Variable loadOptions :
  IParticlesOptions -> option Overrides -> IParticlesOptions.

(** [new Shape()] followed by [shapeOptions.load(data)] *)
Variable loadShape : IShapeOverride -> IShape.

(** [deepExtend({}, source)] is a fresh copy of [source], and an object
    without members for a missing source. *)
Definition deepExtend (source : option IShapeValues) : IShapeValues :=
  match source with
  | Some d => d
  | None => {| sv_fill := None; sv_close := None; sv_particles := None |}
  end.

Definition loadShapeData (this_id : Z) (this_shape : option string)
    (u : Q) (shapeOptions : IShape) (reduceDuplicates : bool)
  : option IShapeValues :=
  let shapeData :=
    match this_shape with
    | Some s => shape_options shapeOptions s
    | None => None
    end in
  match shapeData with
  | Some (Multiple l) =>
      Some (deepExtend
              (Utils.itemFromArray l (Some this_id) reduceDuplicates u))
  | Some (Single d) => Some (deepExtend (Some d))
  | None => None
  end.

(** The shape a [shape.type] option selects for the particle [this_id]. *)
Definition selectShape (this_id : Z) (shapeType : SingleOrMultiple string)
    (reduceDuplicates : bool) (u : Q) : option string :=
  match shapeType with
  | Multiple l => Utils.itemFromArray l (Some this_id) reduceDuplicates u
  | Single s => Some s
  end.

(** [if (overrideOptions.shape.type)]: an array is truthy, a string is
    truthy unless it is empty. *)
Definition truthyType (t : option (SingleOrMultiple string)) : bool :=
  match t with
  | Some (Multiple _) => true
  | Some (Single s) => truthy (Some s)
  | None => false
  end.

(** Lines 293 to 317 of the constructor: [this.shape] and
    [this.shapeData]. *)
Definition initShape (rnd : Random) (this_id : Z)
    (particlesOptions : IParticlesOptions)
    (overrideOptions : option Overrides)
  : option string * option IShapeValues :=
  let shapeType := shape_type (opt_shape particlesOptions) in
  let reduceDuplicates := opt_reduceDuplicates particlesOptions in
  let this_shape :=
    selectShape this_id shapeType reduceDuplicates (u_shape rnd) in
  match match overrideOptions with Some o => ov_shape o | None => None end
  with
  | Some overrideShape =>
      let this_shape :=
        if truthyType (so_type overrideShape)
        then
          match so_type overrideShape with
          | Some overrideShapeType =>
              selectShape this_id overrideShapeType reduceDuplicates
                (u_shapeOverride rnd)
          | None => this_shape
          end
        else this_shape in
      let shapeOptions := loadShape overrideShape in
      (this_shape,
       if truthy this_shape
       then loadShapeData this_id this_shape (u_shapeData rnd)
              shapeOptions reduceDuplicates
       else None)
  | None =>
      (this_shape,
       loadShapeData this_id this_shape (u_shapeData rnd)
         (opt_shape particlesOptions) reduceDuplicates)
  end.

(** The [shape.type] option in force for a construction: the one of the
    overrides when they have a shape with a truthy type, the one of the
    particles options otherwise. *)
Definition shapeTypeInForce (particlesOptions : IParticlesOptions)
    (overrideOptions : option Overrides) : SingleOrMultiple string :=
  match match overrideOptions with Some o => ov_shape o | None => None end
  with
  | Some overrideShape =>
      match so_type overrideShape with
      | Some overrideShapeType =>
          if truthyType (so_type overrideShape) then overrideShapeType
          else shape_type (opt_shape particlesOptions)
      | None => shape_type (opt_shape particlesOptions)
      end
  | None => shape_type (opt_shape particlesOptions)
  end.

(** Lines 336 to 382 of the constructor: [this.size]. *)
Definition initSize (rnd : Random) (container : Container)
    (this_options : IParticlesOptions) (this_retina : IParticleRetinaProps)
  : IParticleNumericValueAnimation :=
  let pxRatio := pixelRatio (container_retina container) in
  let sizeOptions := opt_size this_options in
  let sizeRange := size_value sizeOptions in
  let sizeAnimation := size_animation sizeOptions in
  let size0 :=
    {| enable := anim_enable (size_animation sizeOptions);
       value :=
         NumberUtils.getRangeValue (size_value sizeOptions)
           (u_sizeValue rnd)
         * pixelRatio (container_retina container);
       max := NumberUtils.getRangeMax sizeRange * pxRatio;
       min := NumberUtils.getRangeMin sizeRange * pxRatio;
       loops := 0%Z;
       maxLoops :=
         NumberUtils.getRangeValue
           (anim_count (size_animation sizeOptions)) (u_sizeCount rnd);
       status := None; decay := None; velocity := None |} in
  if anim_enable sizeAnimation
  then
    let this_decay :=
      1 - NumberUtils.getRangeValue (anim_decay sizeAnimation)
            (u_sizeDecay rnd) in
    let started : Q * AnimationStatus :=
      match anim_startValue sizeAnimation with
      | StartValueType_min => (min size0, AnimationStatus_increasing)
      | StartValueType_random =>
          (NumberUtils.randomInRange (RRange (min size0) (max size0))
             (u_sizeStart rnd) * pxRatio,
           if JSNum.geb (u_sizeStatus rnd) (1 # 2)
           then AnimationStatus_increasing
           else AnimationStatus_decreasing)
      | StartValueType_max => (max size0, AnimationStatus_decreasing)
      end in
    let this_velocity :=
      orElse (sizeAnimationSpeed this_retina)
        (retina_sizeAnimationSpeed (container_retina container))
      / 100 * reduceFactor (container_retina container) in
    let this_velocity :=
      if negb (anim_sync sizeAnimation)
      then this_velocity * u_sizeVelocity rnd
      else this_velocity in
    {| enable := enable size0; value := fst started; max := max size0;
       min := min size0; loops := loops size0; maxLoops := maxLoops size0;
       status := Some (snd started); decay := Some this_decay;
       velocity := Some this_velocity |}
  else size0.

(** Lines 418 to 421 of the constructor: the z bookkeeping of the set. *)
Definition trackZ (particles : Particles) (z : Q) : Particles :=
  {| needsSort := needsSort particles || JSNum.ltb (lastZIndex particles) z;
     lastZIndex := z;
     array := array particles;
     updaters := updaters particles;
     movers := movers particles |}.

Definition set_particles (ps : Particles) (c : Container) : Container :=
  {| canvas_size := canvas_size c; container_retina := container_retina c;
     zLayers := zLayers c;
     actualOptions_particles := actualOptions_particles c;
     plugins := plugins c; particles := ps |}.

(** The [init] hooks of the updaters (or movers), in order. *)
Fixpoint initHooks (mk : nat -> Particle -> Event) (i : nat)
    (hooks : list bool) (this : Particle) : list Event :=
  match hooks with
  | [] => []
  | has_init :: rest =>
      (if has_init then [mk i this] else [])
      ++ initHooks mk (S i) rest this
  end.

Definition createdHooks (plugins : list (string * IContainerPlugin))
    (this : Particle) : list Event :=
  flat_map
    (fun entry : string * IContainerPlugin =>
       if particleCreated (snd entry)
       then [Ev_particleCreated (fst entry) this]
       else [])
    plugins.

(** What a construction leaves behind: the particle, the container with
    the particle set as the constructor updated it, and the hook calls. *)
Record Constructed : Type := {
  new_particle : Particle;
  new_container : Container;
  new_events : list Event;
}.

(** The constructor.  Fields the properties below do not involve
    (interactivity, direction and velocity, the drawer and its side
    count, shadow colour) are left out; a field the source has not
    assigned yet when it hands [this] to [calcPosition] holds the origin,
    resp. [false]. *)
Definition constructor (fuel : nat) (rnd : Random) (this_id : Z)
    (container : Container) (position0 : option ICoordinates)
    (overrideOptions : option Overrides) (this_group : option string)
  : Outcome Constructed :=
  let this_fill := true in
  let this_close := true in
  let pxRatio := pixelRatio (container_retina container) in
  let particlesOptions := actualOptions_particles container in
  let '(this_shape, this_shapeData) :=
    initShape rnd this_id particlesOptions overrideOptions in
  let particlesOptions := loadOptions particlesOptions overrideOptions in
  let particlesOptions :=
    loadOptions particlesOptions
      (match this_shapeData with
       | Some d => sv_particles d
       | None => None
       end) in
  let this_fill :=
    orElse (match this_shapeData with Some d => sv_fill d | None => None end)
      this_fill in
  let this_close :=
    orElse (match this_shapeData with Some d => sv_close d | None => None end)
      this_close in
  let this_options := particlesOptions in
  let zIndexValue :=
    NumberUtils.getRangeValue (opt_zIndex this_options) (u_zIndex rnd) in
  let this_retina := initParticle (container_retina container) this_options in
  let this_size := initSize rnd container this_options this_retina in
  let this :=
    {| id := this_id; group := this_group; fill := this_fill;
       close := this_close; lastPathTime := 0; destroyed := false;
       unbreakable := false; splitCount := 0%Z; misplaced := false;
       retina := this_retina; shape := this_shape;
       shapeData := this_shapeData; options := this_options;
       size := this_size; opacity := None;
       bubble := {| inRange := false; bubble_radius := None |};
       position := Vector3d_.create 0 0 0;
       initialPosition := Vector3d_.create 0 0 0;
       spawning := false |} in
  match
    calcPosition fuel this rnd container position0
      (NumberUtils.clamp zIndexValue 0 (zLayers container)) 0%nat
  with
  | Thrown e => Thrown e
  | OutOfFuel => OutOfFuel
  | Returned this_position =>
      let this :=
        {| id := id this; group := group this; fill := fill this;
           close := close this; lastPathTime := lastPathTime this;
           destroyed := destroyed this; unbreakable := unbreakable this;
           splitCount := splitCount this; misplaced := misplaced this;
           retina := retina this; shape := shape this;
           shapeData := shapeData this; options := options this;
           size := size this; opacity := opacity this;
           bubble := bubble this; position := this_position;
           initialPosition := Vector3d_.copy this_position;
           spawning := false |} in
      let particles' := trackZ (particles container) (vz (position this)) in
      let container' := set_particles particles' container in
      Returned
        {| new_particle := this;
           new_container := container';
           new_events :=
             initHooks Ev_updaterInit 0 (updaters particles') this
             ++ initHooks Ev_moverInit 0 (movers particles') this
             ++ createdHooks (plugins container') this |}
  end.

(* ------------------------------------------------------------------ *)
(** ** The mutating methods of a particle, as calls *)

Inductive Method : Type :=
| M_destroy (override : option bool)
| M_reset.

Definition call (container : Container) (rnd : Random)
    (m : Method) (this : Particle) : Particle * list Event :=
  match m with
  | M_destroy override => destroy container rnd override this
  | M_reset => (reset this, [])
  end.

(** A sequence of calls on one particle, with all the hook calls made. *)
Fixpoint run (container : Container) (rnd : Random)
    (ms : list Method) (this : Particle) : Particle * list Event :=
  match ms with
  | [] => (this, [])
  | m :: rest =>
      let (this', events) := call container rnd m this in
      let (this'', events') := run container rnd rest this' in
      (this'', events ++ events')
  end.

(** The scan of [checkOverlap]: does [pos] overlap a particle of the set? *)
Definition overlaps (this : Particle) (container : Container)
    (pos : Vector3d) : bool :=
  existsb
    (fun particle =>
       NumberUtils.getDistance_ltb
         (vx pos) (vy pos)
         (vx (position particle)) (vy (position particle))
         (getRadius this + getRadius particle))
    (array (particles container)).

(** The argument [position] of the call number [k] of a placement: only
    the first call gets the explicit position. *)
Definition positionAt (position0 : option ICoordinates) (k : nat)
  : option ICoordinates :=
  match k with O => position0 | S _ => None end.

(** The candidate of the attempt number [k] of a placement. *)
Definition attempt (this : Particle) (rnd : Random)
    (container : Container) (position0 : option ICoordinates) (zIndex : Q)
    (k : nat) : Vector3d :=
  candidate container this (positionAt position0 k) zIndex
    (u_position rnd k).

(** One edge check of [fixOutMode] in bounce mode, as a relation between
    the coordinate before and after: beyond [maxCoord - 2 radius] the
    coordinate moves down by one radius, else below [2 radius] it moves up
    by one radius, else it stays. *)
Definition edgeCheck (maxCoord radius c c' : Q) : Prop :=
  (maxCoord - radius * 2 < c /\ c' == c - radius)
  \/ (c <= maxCoord - radius * 2 /\ c < radius * 2 /\ c' == c + radius)
  \/ (c <= maxCoord - radius * 2 /\ radius * 2 <= c /\ c' == c).

(** One call of [fixOutMode], whatever the mode, as a relation between
    the coordinate before and after: it stays, or makes the step of an
    edge check. *)
Definition edgeStep (maxCoord radius c c' : Q) : Prop :=
  c' = c \/ edgeCheck maxCoord radius c c'.

(** The exact or sampled position of the attempt number [k]. *)
Definition exactAt (rnd : Random) (container : Container)
    (position0 : option ICoordinates) (k : nat) : ICoordinates :=
  NumberUtils.calcExactPositionOrRandomFromSize (canvas_size container)
    (positionAt position0 k) (u_position rnd k).

(** "The point lies on the canvas". *)
Definition onCanvas (container : Container) (p : ICoordinates) : Prop :=
  0 <= cx p /\ cx p <= width (canvas_size container)
  /\ 0 <= cy p /\ cy p <= height (canvas_size container).

(* ------------------------------------------------------------------ *)
(** ** Visibility *)

Definition isInsideCanvas (container : Container) (this : Particle) : bool :=
  let radius := getRadius this in
  let canvasSize := canvas_size container in
  JSNum.geb (vx (position this)) (- radius)
  && JSNum.geb (vy (position this)) (- radius)
  && Qle_bool (vy (position this)) (height canvasSize + radius)
  && Qle_bool (vx (position this)) (width canvasSize + radius).

Definition isVisible (container : Container) (this : Particle) : bool :=
  negb (destroyed this) && negb (spawning this)
  && isInsideCanvas container this.

(** The number of plugins that have the [particleDestroyed] hook. *)
Definition destroyedListeners (registered : list (string * IContainerPlugin))
  : nat :=
  List.length (filter (fun entry => particleDestroyed (snd entry)) registered).

Definition isDestroyedHook (e : Event) : bool :=
  match e with Ev_particleDestroyed _ _ _ => true | _ => false end.

(** The particle [destroy] hands to the hooks. *)
Definition marked (this : Particle) : Particle :=
  set_bubble (set_inRange false (bubble (set_destroyed true this)))
    (set_destroyed true this).

(** Two animation states that differ in their loop count at most. *)
Definition sameButLoops (a b : IParticleNumericValueAnimation) : Prop :=
  enable a = enable b /\ value a = value b /\ max a = max b
  /\ min a = min b /\ maxLoops a = maxLoops b /\ status a = status b
  /\ decay a = decay b /\ velocity a = velocity b.

(** May the particle still fan out, by its split count? *)
Definition withinSplitLimit (this : Particle) : bool :=
  ((split_count (destroy_split (opt_destroy (options this))) <? 0)
   || (splitCount this
       <=? split_count (destroy_split (opt_destroy (options this)))))%Z.

End Model.

(* ------------------------------------------------------------------ *)
(** ** Colours and mass

    [getFillColor], [getStrokeColor] and [getMass].  The colour methods
    read the colour fields of the particle and of its bubble data only;
    these fields make a record of their own.  The colour helpers of
    Utils/ColorUtils and Utils/CanvasUtils and the constant [Math.PI] are
    left open. *)

Record IHsl : Type := { hsl_h : Q; hsl_s : Q; hsl_l : Q }.

Section Colours.

(** [IParticleHslAnimation] and the type of an alteration of a colour. *)
Variables (HslAnimation AlterType : Type).

(** [getHslFromAnimation] (ColorUtils), [alterHsl] (CanvasUtils), [Math.PI] *)
Variable getHslFromAnimation : option HslAnimation -> option IHsl.
Variable alterHsl : IHsl -> AlterType -> Q -> IHsl.
Variable PI : Q.

Record IRollAlter : Type := {
  alter_type : AlterType;
  alter_value : Q;
}.

Record IParticleRoll : Type := {
  roll_angle : option Q;
  roll_horizontal : bool;
  roll_vertical : bool;
  roll_alter : option IRollAlter;
}.

(** [this.bubble.color], [this.color], [this.strokeColor],
    [this.backColor] and [this.roll]. *)
Record ParticleColours : Type := {
  bubble_color : option IHsl;
  color : option HslAnimation;
  strokeColor : option HslAnimation;
  backColor : option IHsl;
  roll : option IParticleRoll;
}.

Definition isSome {A : Type} (a : option A) : bool :=
  match a with Some _ => true | None => false end.

(** [a ?? b] for an optional [b] *)
Definition orElseOpt {A : Type} (a b : option A) : option A :=
  match a with Some x => Some x | None => b end.

(** The constant [rolled] of [getFillColor]: the number of half turns the
    roll has made, modulo 2. *)
Definition rolled (this_roll : IParticleRoll) : Z :=
  let backFactor : Q :=
    if roll_horizontal this_roll && roll_vertical this_roll then 2 else 1 in
  let backSum : Q := if roll_horizontal this_roll then PI / 2 else 0 in
  Z.rem
    (Qfloor
       ((match roll_angle this_roll with Some a => a | None => 0 end
         + backSum)
        / (PI / backFactor)))
    2.

(** The constant [color] of [getFillColor]: the fill colour of the
    particle's own, before the roll is looked at. *)
Definition ownColor (this : ParticleColours) : option IHsl :=
  orElseOpt (bubble_color this) (getHslFromAnimation (color this)).

Definition getFillColor (this : ParticleColours) : option IHsl :=
  let color := ownColor this in
  match color, roll this with
  | Some c, Some this_roll =>
      if isSome (backColor this) || isSome (roll_alter this_roll)
      then
        if negb (rolled this_roll =? 0)%Z
        then
          match backColor this with
          | Some back => Some back
          | None =>
              match roll_alter this_roll with
              | Some alter =>
                  Some (alterHsl c (alter_type alter) (alter_value alter))
              | None => color
              end
          end
        else color
      else color
  | _, _ => color
  end.

Definition getStrokeColor (this : ParticleColours) : option IHsl :=
  orElseOpt (bubble_color this)
    (orElseOpt (getHslFromAnimation (strokeColor this)) (getFillColor this)).

Definition getMass {Overrides : Type} (this : @Particle Overrides) : Q :=
  getRadius this ^ 2 * PI / 2.

(** The angle of half a turn of a roll: [Math.PI / backFactor]. *)
Definition halfTurn (this_roll : IParticleRoll) : Q :=
  PI / (if roll_horizontal this_roll && roll_vertical this_roll
        then 2 else 1).

(** The roll, turned further by the angle [d]. *)
Definition turned (d : Q) (this_roll : IParticleRoll) : IParticleRoll :=
  {| roll_angle :=
       Some (match roll_angle this_roll with Some a => a | None => 0 end + d);
     roll_horizontal := roll_horizontal this_roll;
     roll_vertical := roll_vertical this_roll;
     roll_alter := roll_alter this_roll |}.

Definition set_roll (r : option IParticleRoll) (this : ParticleColours)
  : ParticleColours :=
  {| bubble_color := bubble_color this; color := color this;
     strokeColor := strokeColor this; backColor := backColor this;
     roll := r |}.

End Colours.

(* ------------------------------------------------------------------ *)
(** ** Concrete configurations

    The data of the scenarios the properties are evaluated on.  Partial
    options objects play no part in them: the type of overrides is
    [unit] and loading one changes nothing. *)

Module Scenario.

Local Open Scope string_scope.

Definition Patch : Type := unit.

Definition ov_shape (o : Patch) : option (@IShapeOverride Patch) := None.

Definition loadOptions (o : @IParticlesOptions Patch) (data : option Patch)
  : @IParticlesOptions Patch := o.

Definition loadShape (data : @IShapeOverride Patch) : @IShape Patch :=
  {| shape_type := orElse (so_type data) (Single "circle");
     shape_options := orElse (so_options data) (fun _ => None) |}.

Definition noAnimation : ISizeAnimation :=
  {| anim_enable := false; anim_startValue := StartValueType_max;
     anim_count := RNumber 0; anim_decay := RNumber 0; anim_sync := true |}.

Definition animation (startValue : StartValueType) : ISizeAnimation :=
  {| anim_enable := true; anim_startValue := startValue;
     anim_count := RNumber 0; anim_decay := RNumber 0; anim_sync := true |}.

Definition noCollisions : ICollisions :=
  {| collisions_enable := false;
     collisions_overlap := {| overlap_enable := true; overlap_retries := 0 |} |}.

(** Collision detection enabled, overlap disallowed, [retries] retries. *)
Definition collisions (retries : Z) : ICollisions :=
  {| collisions_enable := true;
     collisions_overlap :=
       {| overlap_enable := false; overlap_retries := retries |} |}.

Definition allEdges (mode : OutMode) : IOutModes :=
  {| outModes_default := mode; outModes_left := None;
     outModes_right := None; outModes_top := None;
     outModes_bottom := None |}.

Definition noDestroy : @IDestroy Patch :=
  {| destroy_mode := DestroyMode_none;
     destroy_split :=
       {| split_count := 1; split_rate := RNumber 2;
          split_particles := None |} |}.

(** Destroy mode split, at most [count] splits, [rate] children. *)
Definition splitting (count : Z) (rate : Q) : @IDestroy Patch :=
  {| destroy_mode := DestroyMode_split;
     destroy_split :=
       {| split_count := count; split_rate := RNumber rate;
          split_particles := None |} |}.

Definition mkOptions (shapeType : SingleOrMultiple string)
    (sizeRange : RangeValue) (sizeAnimation : ISizeAnimation)
    (zIndex : RangeValue) (collisionsOptions : ICollisions)
    (outModes : IOutModes) (destroyOptions : @IDestroy Patch)
  : @IParticlesOptions Patch :=
  {| opt_shape :=
       {| shape_type := shapeType; shape_options := fun _ => None |};
     opt_reduceDuplicates := false;
     opt_size := {| size_value := sizeRange; size_animation := sizeAnimation |};
     opt_zIndex := zIndex;
     opt_collisions := collisionsOptions;
     opt_outModes := outModes;
     opt_destroy := destroyOptions |}.

(** A particle of radius [r] at (x, y), as a finished construction leaves
    it, with [n] splits counted. *)
Definition mkParticle (opts : @IParticlesOptions Patch) (r x y : Q)
    (isUnbreakable : bool) (n : Z) : @Particle Patch :=
  {| id := 0; group := None; fill := true; close := true;
     lastPathTime := 0; destroyed := false; unbreakable := isUnbreakable;
     splitCount := n; misplaced := false;
     retina := {| sizeAnimationSpeed := None |};
     shape := Some "circle"; shapeData := None; options := opts;
     size :=
       {| enable := false; value := r; max := r; min := r; loops := 0;
          maxLoops := 0; status := None; decay := None; velocity := None |};
     opacity := None;
     bubble := {| inRange := true; bubble_radius := None |};
     position := Vector3d_.create x y 0;
     initialPosition := Vector3d_.create x y 0;
     spawning := false |}.

Definition mkContainer (w h pxRatio : Q) (opts : @IParticlesOptions Patch)
    (registered : list (string * @IContainerPlugin Patch))
    (existing : list (@Particle Patch)) (sortFlag : bool) (lastZ : Q)
  : @Container Patch :=
  {| canvas_size := {| width := w; height := h |};
     container_retina :=
       {| pixelRatio := pxRatio; retina_sizeAnimationSpeed := 5;
          reduceFactor := 1;
          initParticle := fun _ => {| sizeAnimationSpeed := None |} |};
     zLayers := 100;
     actualOptions_particles := opts;
     plugins := registered;
     particles :=
       {| needsSort := sortFlag; lastZIndex := lastZ; array := existing;
          updaters := [true; false]; movers := [true] |} |}.

(** Draws: [u] at every call site but placement, [at_ k] for the attempt
    number [k] of a placement. *)
Definition draws (u : Q) (at_ : nat -> Q * Q) : Random :=
  {| u_shape := u; u_shapeOverride := u; u_shapeData := u; u_zIndex := u;
     u_sizeValue := u; u_sizeCount := u; u_sizeDecay := u;
     u_sizeStart := u; u_sizeStatus := u; u_sizeVelocity := u;
     u_position := at_; u_splitRate := u; u_splitParticles := u |}.

(** A plugin with all three hooks, that places every particle at (x, y). *)
Definition pinning (x y : Q) : @IContainerPlugin Patch :=
  {| particlePosition := Some (fun _ _ => Some {| cx := x; cy := y |});
     particleCreated := true;
     particleDestroyed := true |}.

(** A plugin that only listens. *)
Definition listening : @IContainerPlugin Patch :=
  {| particlePosition := Some (fun _ _ => None);
     particleCreated := true;
     particleDestroyed := true |}.

(** The construction of the scenarios: particle [this_id] of [container],
    explicit position [position0], no overrides, no group. *)
Definition construct (rnd : Random) (this_id : Z)
    (container : @Container Patch) (position0 : option ICoordinates)
  : Outcome (@Constructed Patch) :=
  constructor ov_shape loadOptions loadShape 8 rnd this_id container
    position0 None None.

(** Options of a particle of radius 5 that splits into two children,
    with a split limit of [count]. *)
Definition splitOptions (count : Z) : @IParticlesOptions Patch :=
  mkOptions (Single "circle") (RNumber 5) noAnimation (RNumber 0)
    noCollisions (allEdges OutMode_out) (splitting count 2).

(** A breakable particle with [n] splits counted, and an unbreakable one. *)
Definition splitter (count n : Z) : @Particle Patch :=
  mkParticle (splitOptions count) 5 100 100 false n.

Definition rock : @Particle Patch :=
  mkParticle (splitOptions 3) 5 100 100 true 0.

(** An 800 x 600 canvas with one listening plugin and no particle yet. *)
Definition stage (opts : @IParticlesOptions Patch) : @Container Patch :=
  mkContainer 800 600 1 opts [("listener", listening)] [] false 0.

Definition noDraws : Random := draws 0 (fun _ => (0, 0)).

(** Out-mode "bounce" on all four edges, radius 10, no collision
    detection. *)
Definition bounceOptions : @IParticlesOptions Patch :=
  mkOptions (Single "circle") (RNumber 10) noAnimation (RNumber 0)
    noCollisions (allEdges OutMode_bounce) noDestroy.

(** The particle of radius 10 that is being placed. *)
Definition bouncer : @Particle Patch :=
  mkParticle bounceOptions 10 0 0 false 0.

(** Collision detection enabled, overlap disallowed, [retries] retries,
    radius 5. *)
Definition crowdOptions (retries : Z) : @IParticlesOptions Patch :=
  mkOptions (Single "circle") (RNumber 5) noAnimation (RNumber 0)
    (collisions retries) (allEdges OutMode_out) noDestroy.

(** The particle of radius 5 that is being placed, and the one that sits
    at (100, 100) already. *)
Definition newcomer (retries : Z) : @Particle Patch :=
  mkParticle (crowdOptions retries) 5 0 0 false 0.

Definition resident (retries : Z) : @Particle Patch :=
  mkParticle (crowdOptions retries) 5 100 100 false 0.

(** An 800 x 600 canvas with the resident, and the plugins [registered]. *)
Definition crowd (retries : Z)
    (registered : list (string * @IContainerPlugin Patch))
  : @Container Patch :=
  mkContainer 800 600 1 (crowdOptions retries) registered
    [resident retries] false 0.

(** Draws that sample the centre of the canvas at every attempt. *)
Definition centred : Random := draws 0 (fun _ => (1 # 2, 1 # 2)).

(** The canvas of 800 x 600 on which the particle of radius 10 is placed. *)
Definition canvas : @Container Patch :=
  mkContainer 800 600 1 bounceOptions [("listener", listening)] [] false 0.

Definition corner : option ICoordinates := Some {| cx := 0; cy := 0 |}.

(** Out-mode "bounce" on all four edges, radius 10, collision detection
    enabled, overlap disallowed, [retries] retries. *)
Definition corralOptions (retries : Z) : @IParticlesOptions Patch :=
  mkOptions (Single "circle") (RNumber 10) noAnimation (RNumber 0)
    (collisions retries) (allEdges OutMode_bounce) noDestroy.

(** The particle of radius 10 that is being placed, and the one that sits
    at (20, 20) already, where a particle put in the corner ends. *)
Definition jostler (retries : Z) : @Particle Patch :=
  mkParticle (corralOptions retries) 10 0 0 false 0.

Definition settled (retries : Z) : @Particle Patch :=
  mkParticle (corralOptions retries) 10 20 20 false 0.

Definition corral (retries : Z) : @Container Patch :=
  mkContainer 800 600 1 (corralOptions retries) [("listener", listening)]
    [settled retries] false 0.

(** Draws that sample (10, 300) at every attempt. *)
Definition nearLeft : Random := draws 0 (fun _ => (1 # 80, 1 # 2)).

(** Particles whose z index is sampled between 0 and 10. *)
Definition layeredOptions : @IParticlesOptions Patch :=
  mkOptions (Single "circle") (RNumber 5) noAnimation (RRange 0 10)
    noCollisions (allEdges OutMode_out) noDestroy.

(** An empty set with the sort flag [sortFlag] and the last z [lastZ]. *)
Definition layers (sortFlag : bool) (lastZ : Q) : @Container Patch :=
  mkContainer 800 600 1 layeredOptions [("listener", listening)] []
    sortFlag lastZ.

(** Draws that sample the z index [10 u]. *)
Definition zDraw (u : Q) : Random := draws u (fun _ => (1 # 2, 1 # 2)).

(** An animated size between 2 and 10 that starts at [startValue]. *)
Definition sizeOptions (startValue : StartValueType)
  : @IParticlesOptions Patch :=
  mkOptions (Single "circle") (RRange 2 10) (animation startValue)
    (RNumber 0) noCollisions (allEdges OutMode_out) noDestroy.

Definition sized (pxRatio : Q) (startValue : StartValueType)
  : @Container Patch :=
  mkContainer 800 600 pxRatio (sizeOptions startValue)
    [("listener", listening)] [] false 0.

(** Shapes picked among "circle" and "square". *)
Definition shapeOptions : @IParticlesOptions Patch :=
  mkOptions (Multiple ["circle"; "square"]) (RNumber 5) noAnimation
    (RNumber 0) noCollisions (allEdges OutMode_out) noDestroy.

Definition shaped : @Container Patch :=
  mkContainer 800 600 1 shapeOptions [("listener", listening)] [] false 0.

(** A rational number close to [Math.PI]. *)
Definition pi : Q := 355 # 113.

(** Colours: an animation is given by the colour it yields, an alteration
    adds its value to the lightness. *)
Definition hslOf (a : option IHsl) : option IHsl := a.

Definition lighten (c : IHsl) (kind : unit) (v : Q) : IHsl :=
  {| hsl_h := hsl_h c; hsl_s := hsl_s c; hsl_l := hsl_l c + v |}.

Definition red : IHsl := {| hsl_h := 0; hsl_s := 100; hsl_l := 50 |}.
Definition blue : IHsl := {| hsl_h := 240; hsl_s := 100; hsl_l := 50 |}.

(** A roll about the horizontal axis, at the angle [a]. *)
Definition rolling (a : Q) : IParticleRoll unit :=
  {| roll_angle := Some a; roll_horizontal := true;
     roll_vertical := false; roll_alter := None |}.

(** A red particle with a blue back, rolled to the angle [a]. *)
Definition card (a : Q) : ParticleColours IHsl unit :=
  {| bubble_color := None; color := Some red; strokeColor := None;
     backColor := Some blue; roll := Some (rolling a) |}.

Definition fillOf (this : ParticleColours IHsl unit) : option IHsl :=
  getFillColor IHsl unit hslOf lighten pi this.

Definition strokeOf (this : ParticleColours IHsl unit) : option IHsl :=
  getStrokeColor IHsl unit hslOf lighten pi this.

Definition onResident : option ICoordinates :=
  Some {| cx := 100; cy := 100 |}.

End Scenario.

(* ------------------------------------------------------------------ *)
(** ** Facts on the comparisons of numbers *)

Module JSNumFacts.

Lemma ltb_lt (a b : Q) : JSNum.ltb a b = true <-> a < b.
Proof.
  unfold JSNum.ltb. rewrite negb_true_iff. split; intros H.
  - apply Qnot_le_lt. intros Hle. apply Qle_bool_iff in Hle. congruence.
  - destruct (Qle_bool b a) eqn:E; [|reflexivity].
    apply Qle_bool_iff in E. exfalso. apply (Qlt_not_le _ _ H E).
Qed.

Lemma ltb_ge (a b : Q) : JSNum.ltb a b = false <-> b <= a.
Proof.
  unfold JSNum.ltb. rewrite negb_false_iff. apply Qle_bool_iff.
Qed.

Lemma gtb_gt (a b : Q) : JSNum.gtb a b = true <-> b < a.
Proof. apply ltb_lt. Qed.

Lemma gtb_le (a b : Q) : JSNum.gtb a b = false <-> a <= b.
Proof. apply ltb_ge. Qed.

Lemma geb_ge (a b : Q) : JSNum.geb a b = true <-> b <= a.
Proof. apply Qle_bool_iff. Qed.

Lemma getDistance_ltb_false ax ay bx by_ s :
  NumberUtils.getDistance_ltb ax ay bx by_ s = false <-> NumberUtils.distance_ge ax ay bx by_ s.
Proof.
  unfold NumberUtils.getDistance_ltb, NumberUtils.distance_ge.
  rewrite andb_false_iff, !ltb_ge. tauto.
Qed.

End JSNumFacts.

(* ------------------------------------------------------------------ *)
(** ** Properties of destruction and split *)

Section Destruction.

Context {Overrides : Type}.
Local Abbreviation Particle := (@Particle Overrides).
Local Abbreviation Container := (@Container Overrides).

Implicit Types (this : Particle) (container : Container) (rnd : Random)
  (override : option bool).

(** The guard at the head of [destroy]. *)
Lemma destroy_guard container rnd override this :
  unbreakable this || destroyed this = true ->
  destroy container rnd override this = (this, []).
Proof.
  intros H. unfold destroy. rewrite H. reflexivity.
Qed.

(** What [split] does to the particle: it counts, when a limit is set. *)
Lemma split_particle rnd this :
  fst (split rnd this) =
  if (split_count (destroy_split (opt_destroy (options this))) >=? 0)%Z
  then set_splitCount (splitCount this + 1)%Z this
  else this.
Proof.
  unfold split.
  destruct (split_count _ >=? 0)%Z; [|reflexivity].
  destruct (splitCount this >? _)%Z; reflexivity.
Qed.

Lemma split_over_limit rnd this :
  (0 <= split_count (destroy_split (opt_destroy (options this))))%Z ->
  (split_count (destroy_split (opt_destroy (options this)))
   < splitCount this)%Z ->
  snd (split rnd this) = [].
Proof.
  intros H0 Hlt. unfold split.
  destruct (Z.geb_spec (split_count (destroy_split (opt_destroy (options this)))) 0);
    [|lia].
  destruct (Z.gtb_spec (splitCount this)
              (split_count (destroy_split (opt_destroy (options this)))));
    [reflexivity|lia].
Qed.

Lemma children_destroyedHooks (registered : list (string * IContainerPlugin))
    this override :
  children (destroyedHooks registered this override) = 0%nat.
Proof.
  unfold children, destroyedHooks.
  induction registered as [|[name plugin] rest IH]; [reflexivity|].
  cbn [flat_map fst snd].
  destruct (particleDestroyed plugin); cbn; exact IH.
Qed.

Lemma children_app (a b : list (@Event Overrides)) :
  children (a ++ b) = (children a + children b)%nat.
Proof.
  unfold children. rewrite filter_app, length_app. reflexivity.
Qed.

(** A live, breakable particle: [destroy] runs past its guard. *)
Lemma destroy_live container rnd override this :
  unbreakable this = false -> destroyed this = false ->
  let marked :=
    set_bubble (set_inRange false (bubble (set_destroyed true this)))
      (set_destroyed true this) in
  destroy container rnd override this =
  if orElse override false
  then (marked, destroyedHooks (plugins container) marked override)
  else
    match destroy_mode (opt_destroy (options this)) with
    | DestroyMode_split =>
        (fst (split rnd marked),
         destroyedHooks (plugins container) marked override
         ++ snd (split rnd marked))
    | DestroyMode_none =>
        (marked, destroyedHooks (plugins container) marked override)
    end.
Proof.
  intros Hu Hd marked. unfold destroy. rewrite Hu, Hd. cbn [orb].
  fold marked.
  destruct (orElse override false); [reflexivity|].
  change (options marked) with (options this).
  destruct (destroy_mode (opt_destroy (options this))); [reflexivity|].
  destruct (split rnd marked); reflexivity.
Qed.

(** [destroyed] after a call of [destroy]. *)
Lemma destroy_destroyed container rnd override this :
  destroyed (fst (destroy container rnd override this)) =
  destroyed this || negb (unbreakable this).
Proof.
  destruct (unbreakable this) eqn:Hu.
  - rewrite destroy_guard by (rewrite Hu; reflexivity).
    cbn. rewrite orb_false_r. reflexivity.
  - destruct (destroyed this) eqn:Hd.
    + rewrite destroy_guard by (rewrite Hu, Hd; reflexivity).
      cbn. exact Hd.
    + rewrite (destroy_live container rnd override this Hu Hd). cbn zeta.
      destruct (orElse override false); [reflexivity|].
      destruct (destroy_mode (opt_destroy (options this))); [reflexivity|].
      cbn [fst]. rewrite split_particle.
      destruct (split_count _ >=? 0)%Z; reflexivity.
Qed.

Lemma destroy_unbreakable_kept container rnd override this :
  unbreakable (fst (destroy container rnd override this)) = unbreakable this.
Proof.
  destruct (unbreakable this) eqn:Hu.
  - rewrite destroy_guard by (rewrite Hu; reflexivity). exact Hu.
  - destruct (destroyed this) eqn:Hd.
    + rewrite destroy_guard by (rewrite Hu, Hd; reflexivity). exact Hu.
    + rewrite (destroy_live container rnd override this Hu Hd). cbn zeta.
      destruct (orElse override false); [exact Hu|].
      destruct (destroy_mode (opt_destroy (options this))); [exact Hu|].
      cbn [fst]. rewrite split_particle.
      destruct (split_count _ >=? 0)%Z; exact Hu.
Qed.

(** C3, as amended.  For a particle whose destroy mode is split, with a
    non-negative split limit: a call of [destroy] never lowers
    [splitCount] and raises it by at most one; it raises it by exactly one
    when the call is not an override and the particle is neither
    unbreakable nor already destroyed, whatever the limit; and a particle
    whose [splitCount] is above the limit produces no child particle. *)
Theorem destroy_split_count container rnd override this :
  destroy_mode (opt_destroy (options this)) = DestroyMode_split ->
  (0 <= split_count (destroy_split (opt_destroy (options this))))%Z ->
  let this' := fst (destroy container rnd override this) in
  let events := snd (destroy container rnd override this) in
  (splitCount this <= splitCount this' <= splitCount this + 1)%Z
  /\ (splitCount this' = (splitCount this + 1)%Z <->
      unbreakable this = false /\ destroyed this = false
      /\ orElse override false = false)
  /\ ((split_count (destroy_split (opt_destroy (options this)))
       < splitCount this)%Z ->
      children events = 0%nat).
Proof.
  intros Hmode Hcount this' events. subst this' events.
  destruct (unbreakable this) eqn:Hu;
    [rewrite destroy_guard by (rewrite Hu; reflexivity); cbn [fst snd];
     repeat split; try lia; intros; try reflexivity; intuition congruence|].
  destruct (destroyed this) eqn:Hd;
    [rewrite destroy_guard by (rewrite Hu, Hd; reflexivity); cbn [fst snd];
     repeat split; try lia; intros; try reflexivity; intuition congruence|].
  rewrite (destroy_live container rnd override this Hu Hd). cbn zeta.
  set (marked := set_bubble _ _).
  assert (Hsc : splitCount marked = splitCount this) by reflexivity.
  assert (Hopt : options marked = options this) by reflexivity.
  destruct (orElse override false) eqn:Ho.
  - cbn [fst snd]. rewrite Hsc, children_destroyedHooks.
    repeat split; try lia; intros; try reflexivity; intuition congruence.
  - rewrite Hmode. cbn [fst snd].
    rewrite split_particle, Hopt.
    destruct (Z.geb_spec (split_count (destroy_split
                (opt_destroy (options this)))) 0) as [_|Hneg]; [|lia].
    cbn [splitCount set_splitCount]. rewrite Hsc.
    repeat split; try lia.
    intros Hlt. rewrite children_app, children_destroyedHooks.
    rewrite split_over_limit; [reflexivity| |]; rewrite Hopt; [lia|].
    rewrite Hsc. exact Hlt.
Qed.

(** C5.  For a particle with [unbreakable = true], no call of [destroy],
    whatever its argument, and no sequence of such calls, sets
    [destroyed]: the flag is after the calls what it was before, so a
    particle that is not destroyed stays so. *)
Theorem unbreakable_never_destroyed container rnd this :
  unbreakable this = true ->
  (forall override,
      destroyed (fst (destroy container rnd override this)) = destroyed this)
  /\ (forall overrides : list (option bool),
         destroyed (fst (run container rnd (map M_destroy overrides) this))
         = destroyed this)
  /\ (destroyed this = false ->
      forall overrides : list (option bool),
        destroyed (fst (run container rnd (map M_destroy overrides) this))
        <> true).
Proof.
  intros Hu.
  assert (Hrun : forall overrides : list (option bool),
             run container rnd (map M_destroy overrides) this = (this, [])).
  { induction overrides as [|o rest IH]; [reflexivity|].
    cbn [map run call].
    rewrite destroy_guard by (rewrite Hu; reflexivity).
    rewrite IH. reflexivity. }
  split; [|split].
  - intros override.
    rewrite destroy_guard by (rewrite Hu; reflexivity). reflexivity.
  - intros overrides. rewrite Hrun. reflexivity.
  - intros Hd overrides. rewrite Hrun. cbn [fst]. congruence.
Qed.

(** C10.  [destroy] on a particle with [unbreakable = true] is a no-op,
    also when the override argument is [true]: the particle is returned as
    it was ([destroyed] and [bubble.inRange] keep their values), no
    [particleDestroyed] hook is called and no child is requested. *)
Theorem destroy_unbreakable_noop container rnd override this :
  unbreakable this = true ->
  destroy container rnd override this = (this, [])
  /\ destroy container rnd (Some true) this = (this, [])
  /\ destroyed (fst (destroy container rnd override this)) = destroyed this
  /\ inRange (bubble (fst (destroy container rnd override this)))
     = inRange (bubble this)
  /\ (forall e, ~ In e (snd (destroy container rnd override this)))
  /\ children (snd (destroy container rnd override this)) = 0%nat.
Proof.
  intros Hu.
  assert (H : forall o, destroy container rnd o this = (this, [])).
  { intros o. unfold destroy. rewrite Hu. reflexivity. }
  rewrite !H. cbn [fst snd]. repeat split; auto.
Qed.

End Destruction.

(** At the limit a particle still splits, and its counter passes the
    limit: with a split limit of 0 and a rate of 2, a fresh particle (no
    split counted) that is destroyed requests two children and ends with
    [splitCount = 1]. *)
Lemma split_at_limit_fans_out :
  splitCount (Scenario.splitter 0 0)
  = split_count (destroy_split (opt_destroy (options (Scenario.splitter 0 0))))
  /\ children
       (snd (destroy (Scenario.stage (Scenario.splitOptions 0))
               Scenario.noDraws None (Scenario.splitter 0 0))) = 2%nat
  /\ (split_count
        (destroy_split (opt_destroy (options (Scenario.splitter 0 0))))
      < splitCount
          (fst (destroy (Scenario.stage (Scenario.splitOptions 0))
                  Scenario.noDraws None (Scenario.splitter 0 0))))%Z.
Proof.
  vm_compute. repeat split; reflexivity.
Qed.

Lemma destroy_split_count_witness :
  (splitCount (Scenario.splitter 1 2)
   <= splitCount
        (fst (destroy (Scenario.stage (Scenario.splitOptions 1))
                Scenario.noDraws None (Scenario.splitter 1 2)))
   <= splitCount (Scenario.splitter 1 2) + 1)%Z
  /\ children
       (snd (destroy (Scenario.stage (Scenario.splitOptions 1))
               Scenario.noDraws None (Scenario.splitter 1 2))) = 0%nat.
Proof.
  pose proof
    (destroy_split_count (Scenario.stage (Scenario.splitOptions 1))
       Scenario.noDraws None (Scenario.splitter 1 2)
       eq_refl ltac:(vm_compute; discriminate)) as [H1 [_ H3]].
  split; [exact H1 | apply H3; vm_compute; reflexivity].
Defined.

Lemma unbreakable_never_destroyed_witness :
  destroyed
    (fst (run (Scenario.stage (Scenario.splitOptions 3)) Scenario.noDraws
            (map M_destroy [None; Some true; Some false]) Scenario.rock))
  = false.
Proof.
  exact (proj1 (proj2 (unbreakable_never_destroyed
                         (Scenario.stage (Scenario.splitOptions 3))
                         Scenario.noDraws Scenario.rock eq_refl))
           [None; Some true; Some false]).
Defined.

Lemma destroy_unbreakable_noop_witness :
  destroy (Scenario.stage (Scenario.splitOptions 3)) Scenario.noDraws
    (Some true) Scenario.rock = (Scenario.rock, []).
Proof.
  exact (proj1 (destroy_unbreakable_noop
                  (Scenario.stage (Scenario.splitOptions 3))
                  Scenario.noDraws (Some true) Scenario.rock eq_refl)).
Defined.

(* ------------------------------------------------------------------ *)
(** ** Properties of placement *)

Section Placement.

Context {Overrides : Type}.
Local Abbreviation Particle := (@Particle Overrides).
Local Abbreviation Container := (@Container Overrides).

Implicit Types (this : Particle) (container : Container) (rnd : Random).

Lemma pluginPosition_app (before after : list (string * IContainerPlugin))
    position this :
  pluginPosition before position this = None ->
  pluginPosition (before ++ after) position this
  = pluginPosition after position this.
Proof.
  induction before as [|[name plugin] rest IH]; [reflexivity|].
  cbn [pluginPosition app].
  destruct (particlePosition plugin) as [hook|].
  - destruct (hook position this); [discriminate|exact IH].
  - exact IH.
Qed.

(** The plugin loop answers exactly when some registered plugin does, and
    then with the answer of the first one that does. *)
Lemma pluginPosition_first (registered : list (string * IContainerPlugin))
    position this :
  (exists entry hook q,
      In entry registered /\ particlePosition (snd entry) = Some hook
      /\ hook position this = Some q) ->
  exists before entry after hook p,
    registered = before ++ entry :: after
    /\ pluginPosition before position this = None
    /\ particlePosition (snd entry) = Some hook
    /\ hook position this = Some p
    /\ pluginPosition registered position this = Some p.
Proof.
  induction registered as [|[name plugin] rest IH].
  - intros (entry & hook & q & [] & _).
  - intros (entry & hook & q & Hin & Hhook & Hq).
    destruct (particlePosition plugin) as [hook0|] eqn:Eh.
    + destruct (hook0 position this) as [p|] eqn:Ep.
      * exists [], (name, plugin), rest, hook0, p.
        cbn [pluginPosition app snd]. rewrite Eh, Ep. auto.
      * destruct Hin as [<-|Hin].
        { cbn [snd] in Hhook. congruence. }
        destruct IH as (before & e & after & h & p & -> & Hb & Hh & Hp & Hr).
        { exists entry, hook, q. auto. }
        exists ((name, plugin) :: before), e, after, h, p.
        cbn [pluginPosition app]. rewrite Eh, Ep. auto.
    + destruct Hin as [<-|Hin].
      { cbn [snd] in Hhook. congruence. }
      destruct IH as (before & e & after & h & p & -> & Hb & Hh & Hp & Hr).
      { exists entry, hook, q. auto. }
      exists ((name, plugin) :: before), e, after, h, p.
      cbn [pluginPosition app]. rewrite Eh. auto.
Qed.

(** With collision detection enabled and overlap disallowed,
    [checkOverlap] throws past the retry limit and scans otherwise. *)
Lemma checkOverlap_scan this container pos tryCount :
  collisions_enable (opt_collisions (options this)) = true ->
  overlap_enable (collisions_overlap (opt_collisions (options this))) = false ->
  checkOverlap this container pos tryCount =
  if ((overlap_retries (collisions_overlap (opt_collisions (options this)))
       >=? 0)
      && (Z.of_nat tryCount
          >? overlap_retries
               (collisions_overlap (opt_collisions (options this)))))%Z
  then Thrown PlacementExhausted
  else Returned (overlaps this container pos).
Proof.
  intros Hc Ho. unfold checkOverlap. rewrite Hc, Ho. reflexivity.
Qed.

(** [checkOverlap] throws nothing without a non-negative retry limit. *)
Lemma checkOverlap_unbounded this container pos tryCount message :
  (overlap_retries (collisions_overlap (opt_collisions (options this))) < 0)%Z ->
  checkOverlap this container pos tryCount <> Thrown message.
Proof.
  intros Hneg. unfold checkOverlap.
  destruct (collisions_enable _); [|discriminate].
  destruct (overlap_enable _); [discriminate|].
  destruct (Z.geb_spec (overlap_retries (collisions_overlap
              (opt_collisions (options this)))) 0); [lia|].
  discriminate.
Qed.

Lemma overlaps_false this container pos :
  overlaps this container pos = false ->
  forall particle, In particle (array (particles container)) ->
    NumberUtils.distance_ge (vx pos) (vy pos)
      (vx (position particle)) (vy (position particle))
      (getRadius this + getRadius particle).
Proof.
  unfold overlaps. intros H particle Hin.
  apply JSNumFacts.getDistance_ltb_false.
  destruct (NumberUtils.getDistance_ltb _ _ _ _ _) eqn:E; [|reflexivity].
  assert (existsb
            (fun particle =>
               NumberUtils.getDistance_ltb (vx pos) (vy pos)
                 (vx (position particle)) (vy (position particle))
                 (getRadius this + getRadius particle))
            (array (particles container)) = true) as Ht.
  { apply existsb_exists. exists particle. auto. }
  congruence.
Qed.

Lemma calcPosition_step fuel this rnd container position0 zIndex k :
  pluginPosition (plugins container) (positionAt position0 k) this = None ->
  calcPosition (S fuel) this rnd container (positionAt position0 k) zIndex k
  = match
      checkOverlap this container
        (attempt this rnd container position0 zIndex k) k
    with
    | Thrown e => Thrown e
    | OutOfFuel => OutOfFuel
    | Returned true =>
        calcPosition fuel this rnd container (positionAt position0 (S k))
          zIndex (S k)
    | Returned false =>
        Returned (attempt this rnd container position0 zIndex k)
    end.
Proof.
  intros Hp. cbn [calcPosition]. rewrite Hp. reflexivity.
Qed.

Section Retries.

Variables (this : Particle) (rnd : Random) (container : Container)
  (position0 : option ICoordinates) (zIndex : Q).

Hypothesis collisions_on :
  collisions_enable (opt_collisions (options this)) = true.
Hypothesis overlap_off :
  overlap_enable (collisions_overlap (opt_collisions (options this))) = false.
Hypothesis no_plugin_position :
  forall position, pluginPosition (plugins container) position this = None.

Let retries : Z :=
  overlap_retries (collisions_overlap (opt_collisions (options this))).
Let place (fuel k : nat) : Outcome Vector3d :=
  calcPosition fuel this rnd container (positionAt position0 k) zIndex k.
Let rejected (k : nat) : Prop :=
  overlaps this container (attempt this rnd container position0 zIndex k)
  = true.

(** A call within the retry limit scans its candidate. *)
Lemma place_within fuel k :
  (retries < 0 \/ Z.of_nat k <= retries)%Z ->
  place (S fuel) k =
  if overlaps this container (attempt this rnd container position0 zIndex k)
  then place fuel (S k)
  else Returned (attempt this rnd container position0 zIndex k).
Proof.
  intros Hk. unfold place.
  rewrite calcPosition_step by apply no_plugin_position.
  rewrite checkOverlap_scan by assumption. fold retries.
  replace ((retries >=? 0) && (Z.of_nat k >? retries))%Z with false.
  - destruct (overlaps _ _ _); reflexivity.
  - symmetry. apply andb_false_iff.
    destruct (Z.geb_spec retries 0); [|left; reflexivity].
    right. destruct (Z.gtb_spec (Z.of_nat k) retries); [lia|reflexivity].
Qed.

(** A call past a non-negative retry limit throws. *)
Lemma place_past fuel k :
  (0 <= retries < Z.of_nat k)%Z ->
  place (S fuel) k = Thrown PlacementExhausted.
Proof.
  intros Hk. unfold place.
  rewrite calcPosition_step by apply no_plugin_position.
  rewrite checkOverlap_scan by assumption. fold retries.
  destruct (Z.geb_spec retries 0); [|lia].
  destruct (Z.gtb_spec (Z.of_nat k) retries); [reflexivity|lia].
Qed.

(** The calls [k], [k + 1], ... of a placement whose limit is [N]: the
    first candidate that is not rejected is returned, and the call number
    [N + 1] throws. *)
Lemma place_bounded (N : nat) :
  retries = Z.of_nat N ->
  forall n k fuel, (k + n = N + 1)%nat -> (n + 1 <= fuel)%nat ->
    (exists j, (k <= j <= N)%nat
               /\ (forall i, (k <= i < j)%nat -> rejected i)
               /\ ~ rejected j
               /\ place fuel k
                  = Returned (attempt this rnd container position0 zIndex j))
    \/ ((forall i, (k <= i <= N)%nat -> rejected i)
        /\ place fuel k = Thrown PlacementExhausted).
Proof.
  intros HN. induction n as [|n IH]; intros k fuel Hk Hfuel.
  - right. split; [intros i Hi; lia|].
    destruct fuel as [|fuel]; [lia|]. apply place_past. lia.
  - destruct fuel as [|fuel]; [lia|].
    rewrite place_within by lia.
    destruct (overlaps this container
                (attempt this rnd container position0 zIndex k)) eqn:E.
    + destruct (IH (S k) fuel ltac:(lia) ltac:(lia))
        as [(j & Hj & Hrej & Hfree & Hres)|[Hrej Hres]].
      * left. exists j. repeat split; try lia; try assumption.
        intros i Hi. destruct (Nat.eq_dec i k) as [->|Hne]; [exact E|].
        apply Hrej. lia.
      * right. split; [|assumption].
        intros i Hi. destruct (Nat.eq_dec i k) as [->|Hne]; [exact E|].
        apply Hrej. lia.
    + left. exists k. repeat split; try lia.
      unfold rejected. rewrite E. discriminate.
Qed.

(** With one call less than it takes to throw, the model is still
    running: the error comes with the call number [N + 1]. *)
Lemma place_short (N : nat) :
  retries = Z.of_nat N ->
  forall n k, (k + n = N + 1)%nat ->
    (forall i, (k <= i <= N)%nat -> rejected i) ->
    place n k = OutOfFuel.
Proof.
  intros HN. induction n as [|n IH]; intros k Hk Hrej; [reflexivity|].
  rewrite place_within by lia.
  pose proof (Hrej k ltac:(lia)) as E. unfold rejected in E. rewrite E.
  apply IH; [lia|]. intros i Hi. apply Hrej. lia.
Qed.

(** Without a limit, the first free candidate is returned however late
    it comes. *)
Lemma place_unbounded_free :
  (retries < 0)%Z ->
  forall n k fuel,
    (forall i, (k <= i < k + n)%nat -> rejected i) ->
    ~ rejected (k + n)%nat -> (n < fuel)%nat ->
    place fuel k
    = Returned (attempt this rnd container position0 zIndex (k + n)).
Proof.
  intros Hneg. induction n as [|n IH]; intros k fuel Hrej Hfree Hfuel;
    (destruct fuel as [|fuel]; [lia|]); rewrite place_within by lia.
  - rewrite Nat.add_0_r in *. unfold rejected in Hfree.
    destruct (overlaps _ _ _); [congruence|reflexivity].
  - pose proof (Hrej k ltac:(lia)) as E. unfold rejected in E. rewrite E.
    replace (k + S n)%nat with (S k + n)%nat in * by lia.
    apply IH; [|assumption|lia].
    intros i Hi. apply Hrej. lia.
Qed.

Lemma place_unbounded_never :
  (retries < 0)%Z -> (forall k, rejected k) ->
  forall fuel k, place fuel k = OutOfFuel.
Proof.
  intros Hneg Hrej. induction fuel as [|fuel IH]; intros k; [reflexivity|].
  rewrite place_within by lia.
  pose proof (Hrej k) as E. unfold rejected in E. rewrite E. apply IH.
Qed.

End Retries.

(** Nothing is thrown without a non-negative retry limit, with or without
    plugins, whatever the collision options. *)
Lemma calcPosition_no_limit this rnd container zIndex :
  (overlap_retries (collisions_overlap (opt_collisions (options this))) < 0)%Z ->
  forall fuel position k message,
    calcPosition fuel this rnd container position zIndex k <> Thrown message.
Proof.
  intros Hneg. induction fuel as [|fuel IH]; intros position k message;
    [discriminate|].
  cbn [calcPosition].
  destruct (pluginPosition _ _ _); [discriminate|].
  destruct (checkOverlap _ _ _ _) as [[|]| |] eqn:E.
  - apply IH.
  - discriminate.
  - exfalso. exact (checkOverlap_unbounded _ _ _ _ _ Hneg E).
  - discriminate.
Qed.

(** C1, as amended.  With collision detection enabled and overlap
    disallowed, and when no plugin supplies a position: for a retry limit
    N >= 0, placement either returns a position whose distance to every
    existing particle of the container is at least the sum of the two
    radii (the first candidate, among the attempts 0 .. N, that the scan
    does not reject), or raises the placement-exhausted error after
    exactly N + 1 candidates were scanned and rejected (the error is
    raised by the call number N + 1, counted from 0, before any scan: one
    call less and the placement is still running).  With a negative limit
    the error is never raised: the first free candidate is returned
    however many attempts it takes, and the placement does not end when
    every candidate is rejected. *)
Theorem calcPosition_overlap_retries this rnd container position0 zIndex :
  collisions_enable (opt_collisions (options this)) = true ->
  overlap_enable (collisions_overlap (opt_collisions (options this))) = false ->
  (forall position, pluginPosition (plugins container) position this = None) ->
  let retries :=
    overlap_retries (collisions_overlap (opt_collisions (options this))) in
  let place fuel := calcPosition fuel this rnd container position0 zIndex 0 in
  let rejected k :=
    overlaps this container (attempt this rnd container position0 zIndex k)
    = true in
  (forall N : nat, retries = Z.of_nat N ->
     forall fuel, (N + 2 <= fuel)%nat ->
       (exists pos k,
           place fuel = Returned pos
           /\ (k <= N)%nat
           /\ pos = attempt this rnd container position0 zIndex k
           /\ (forall j, (j < k)%nat -> rejected j)
           /\ forall particle, In particle (array (particles container)) ->
                NumberUtils.distance_ge (vx pos) (vy pos)
                  (vx (position particle)) (vy (position particle))
                  (getRadius this + getRadius particle))
       \/ (place fuel = Thrown PlacementExhausted
           /\ (forall j, (j <= N)%nat -> rejected j)
           /\ place (N + 1)%nat = OutOfFuel))
  /\ ((retries < 0)%Z ->
      (forall fuel message, place fuel <> Thrown message)
      /\ (forall k, (forall j, (j < k)%nat -> rejected j) -> ~ rejected k ->
            forall fuel, (k < fuel)%nat ->
              place fuel
              = Returned (attempt this rnd container position0 zIndex k))
      /\ ((forall k, rejected k) -> forall fuel, place fuel = OutOfFuel)).
Proof.
  intros Hc Ho Hp retries place rejected.
  subst retries place rejected. cbv beta. split.
  - intros N HN fuel Hfuel.
    destruct (place_bounded this rnd container position0 zIndex Hc Ho Hp
                N HN (N + 1) 0 fuel ltac:(lia) ltac:(lia))
      as [(j & Hj & Hrej & Hfree & Hres)|[Hrej Hres]].
    + left. exists (attempt this rnd container position0 zIndex j), j.
      repeat split; try assumption; try lia.
      * intros i Hi. apply Hrej. lia.
      * apply overlaps_false.
        destruct (overlaps this container
                    (attempt this rnd container position0 zIndex j));
          [contradiction Hfree; reflexivity|reflexivity].
    + right. repeat split; try assumption.
      * intros j Hj. apply Hrej. lia.
      * apply (place_short this rnd container position0 zIndex Hc Ho Hp
                 N HN (N + 1) 0); [lia|].
        intros i Hi. apply Hrej. lia.
  - intros Hneg. repeat split.
    + intros fuel message. apply calcPosition_no_limit. exact Hneg.
    + intros k Hrej Hfree fuel Hfuel.
      apply (place_unbounded_free this rnd container position0 zIndex
               Hc Ho Hp Hneg k 0 fuel); try assumption.
      intros i Hi. apply Hrej. lia.
    + intros Hrej fuel.
      apply (place_unbounded_never this rnd container position0 zIndex
               Hc Ho Hp Hneg Hrej fuel 0).
Qed.

(** C9.  When some registered plugin answers the [particlePosition] hook
    with a position, [calcPosition] returns the position of a plugin (the
    first one that answers) with the given z, at once: for every
    collision and out-mode configuration of the particle, every retry
    count and every draw, the result is that position as the plugin gave
    it, not snapped inwards and not scanned for overlap. *)
Theorem calcPosition_plugin_position this container position :
  (exists entry hook q,
      In entry (plugins container)
      /\ particlePosition (snd entry) = Some hook
      /\ hook position this = Some q) ->
  exists before entry after hook p,
    plugins container = before ++ entry :: after
    /\ pluginPosition before position this = None
    /\ particlePosition (snd entry) = Some hook
    /\ hook position this = Some p
    /\ forall fuel rnd zIndex tryCount,
         calcPosition (S fuel) this rnd container position zIndex tryCount
         = Returned (Vector3d_.create (cx p) (cy p) zIndex).
Proof.
  intros H.
  destruct (pluginPosition_first (plugins container) position this H)
    as (before & entry & after & hook & p & Hsplit & Hb & Hh & Hp & Hr).
  exists before, entry, after, hook, p. repeat split; try assumption.
  intros fuel rnd zIndex tryCount. cbn [calcPosition]. rewrite Hr.
  reflexivity.
Qed.

(** One check of [fixOutMode] for the mode "bounce" on the x axis: the
    coordinate makes one [edgeCheck] step, the rest is untouched. *)
Lemma fixHorizontal_bounce container (r : Q) (pos : Vector3d) :
  edgeCheck (width (canvas_size container)) r (vx pos)
    (vx (fixHorizontal container r OutMode_bounce pos))
  /\ vy (fixHorizontal container r OutMode_bounce pos) = vy pos
  /\ vz (fixHorizontal container r OutMode_bounce pos) = vz pos.
Proof.
  unfold fixHorizontal, fixOutMode, edgeCheck.
  cbn [Utils.isInArray existsb OutMode_eqb orb negb outMode checkModes
       coord maxCoord radius setCb].
  destruct (JSNum.gtb (vx pos) (width (canvas_size container) - r * 2))
    eqn:G.
  - apply JSNumFacts.gtb_gt in G. cbn. split; [|split; reflexivity].
    left. split; [exact G|reflexivity].
  - apply JSNumFacts.gtb_le in G.
    destruct (JSNum.ltb (vx pos) (r * 2)) eqn:L.
    + apply JSNumFacts.ltb_lt in L. cbn. split; [|split; reflexivity].
      right. left. repeat split; try assumption; reflexivity.
    + apply JSNumFacts.ltb_ge in L. split; [|split; reflexivity].
      right. right. repeat split; try assumption; reflexivity.
Qed.

Lemma fixVertical_bounce container (r : Q) (pos : Vector3d) :
  edgeCheck (height (canvas_size container)) r (vy pos)
    (vy (fixVertical container r OutMode_bounce pos))
  /\ vx (fixVertical container r OutMode_bounce pos) = vx pos
  /\ vz (fixVertical container r OutMode_bounce pos) = vz pos.
Proof.
  unfold fixVertical, fixOutMode, edgeCheck.
  cbn [Utils.isInArray existsb OutMode_eqb orb negb outMode checkModes
       coord maxCoord radius setCb].
  destruct (JSNum.gtb (vy pos) (height (canvas_size container) - r * 2))
    eqn:G.
  - apply JSNumFacts.gtb_gt in G. cbn. split; [|split; reflexivity].
    left. split; [exact G|reflexivity].
  - apply JSNumFacts.gtb_le in G.
    destruct (JSNum.ltb (vy pos) (r * 2)) eqn:L.
    + apply JSNumFacts.ltb_lt in L. cbn. split; [|split; reflexivity].
      right. left. repeat split; try assumption; reflexivity.
    + apply JSNumFacts.ltb_ge in L. split; [|split; reflexivity].
      right. right. repeat split; try assumption; reflexivity.
Qed.

(** Two edge checks in a row, on a canvas wide enough for the particle:
    what becomes of a coordinate near the low or the high edge. *)
Lemma edgeCheck_twice (m r c c1 c2 : Q) :
  edgeCheck m r c c1 -> edgeCheck m r c1 c2 ->
  0 <= r ->
  (c + r <= m - r * 2 ->
   (r <= c /\ c < r * 2 -> c2 == c + r)
   /\ (c < r -> c2 == c + r * 2))
  /\ (r * 2 <= c - r ->
      (m - r * 2 < c /\ c <= m - r -> c2 == c - r)
      /\ (m - r < c -> c2 == c - r * 2)).
Proof.
  unfold edgeCheck.
  intros [[A1 B1]|[[A1 [A1' B1]]|[A1 [A1' B1]]]]
         [[A2 B2]|[[A2 [A2' B2]]|[A2 [A2' B2]]]] Hr;
    (split; intros Hfit; split; intros Hc); lra.
Qed.

(** Without a plugin position, what a placement returns is the first of
    its candidates that its overlap check lets pass. *)
Lemma calcPosition_returns_first this rnd container position0 zIndex :
  (forall position, pluginPosition (plugins container) position this = None) ->
  forall fuel k pos,
    calcPosition fuel this rnd container (positionAt position0 k) zIndex k
    = Returned pos ->
    exists j, (k <= j)%nat
              /\ pos = attempt this rnd container position0 zIndex j
              /\ checkOverlap this container pos j = Returned false
              /\ forall i, (k <= i < j)%nat ->
                   checkOverlap this container
                     (attempt this rnd container position0 zIndex i) i
                   = Returned true.
Proof.
  intros Hp. induction fuel as [|fuel IH]; intros k pos; [discriminate|].
  rewrite calcPosition_step by apply Hp.
  destruct (checkOverlap this container
              (attempt this rnd container position0 zIndex k) k)
    as [[|]| |] eqn:E; try discriminate.
  - intros H. destruct (IH (S k) pos H) as (j & Hj & Hpos & Hfree & Hrej).
    exists j. split; [lia|]. split; [exact Hpos|]. split; [exact Hfree|].
    intros i Hi. destruct (Nat.eq_dec i k) as [->|Hne];
      [exact E|apply Hrej; lia].
  - intros H. injection H as <-. exists k. split; [lia|].
    split; [reflexivity|]. split; [exact E|]. intros i Hi. lia.
Qed.

(** And the first candidate that the check lets pass is returned, by the
    call that made it. *)
Lemma calcPosition_first_accepted this rnd container position0 zIndex :
  (forall position, pluginPosition (plugins container) position this = None) ->
  forall j k fuel,
    (forall i, (k <= i < k + j)%nat ->
       checkOverlap this container
         (attempt this rnd container position0 zIndex i) i = Returned true) ->
    checkOverlap this container
      (attempt this rnd container position0 zIndex (k + j)) (k + j)
    = Returned false ->
    calcPosition (S (j + fuel)) this rnd container (positionAt position0 k)
      zIndex k
    = Returned (attempt this rnd container position0 zIndex (k + j)).
Proof.
  intros Hp. induction j as [|j IH]; intros k fuel Hrej Hacc.
  - rewrite calcPosition_step by apply Hp.
    rewrite Nat.add_0_r in Hacc. rewrite Nat.add_0_r, Hacc. reflexivity.
  - rewrite calcPosition_step by apply Hp.
    rewrite (Hrej k) by lia.
    replace (k + S j)%nat with (S k + j)%nat in Hacc by lia.
    replace (k + S j)%nat with (S k + j)%nat by lia.
    apply (IH (S k) fuel); [intros i Hi; apply Hrej; lia|exact Hacc].
Qed.

(** C2, as amended.  During the placement of a position that no plugin
    supplies, with out-mode "bounce" on all four edges, each of the four
    edge checks (left and right on x, then top and bottom on y, each on
    the coordinate as the check before left it) moves a coordinate
    beyond max - 2 radius inwards by exactly one radius, and otherwise a
    coordinate below 2 radius inwards by exactly one radius.  An axis is
    checked twice: on a canvas that leaves the room, a coordinate between
    one and two radii from an edge ends one radius further inside, and a
    coordinate less than one radius from the edge, or beyond it, ends two
    radii further inside.  This holds of the candidate of every attempt,
    the first and every retry; the position a placement returns is the
    first candidate that the overlap check lets pass, and a placement
    with such a candidate returns it by the call that made it. *)
Theorem calcPosition_bounce_edges this rnd container position0 zIndex :
  (forall position, pluginPosition (plugins container) position this = None) ->
  orElse (outModes_left (opt_outModes (options this)))
    (outModes_default (opt_outModes (options this))) = OutMode_bounce ->
  orElse (outModes_right (opt_outModes (options this)))
    (outModes_default (opt_outModes (options this))) = OutMode_bounce ->
  orElse (outModes_top (opt_outModes (options this)))
    (outModes_default (opt_outModes (options this))) = OutMode_bounce ->
  orElse (outModes_bottom (opt_outModes (options this)))
    (outModes_default (opt_outModes (options this))) = OutMode_bounce ->
  let r := getRadius this in
  let w := width (canvas_size container) in
  let h := height (canvas_size container) in
  (forall k,
     let exact := exactAt rnd container position0 k in
     let pos := attempt this rnd container position0 zIndex k in
     vz pos = zIndex
     /\ (exists x1, edgeCheck w r (cx exact) x1 /\ edgeCheck w r x1 (vx pos))
     /\ (exists y1, edgeCheck h r (cy exact) y1 /\ edgeCheck h r y1 (vy pos))
     /\ (0 <= r ->
         (cx exact + r <= w - r * 2 ->
          (r <= cx exact /\ cx exact < r * 2 -> vx pos == cx exact + r)
          /\ (cx exact < r -> vx pos == cx exact + r * 2))
         /\ (r * 2 <= cx exact - r ->
             (w - r * 2 < cx exact /\ cx exact <= w - r ->
              vx pos == cx exact - r)
             /\ (w - r < cx exact -> vx pos == cx exact - r * 2)))
     /\ (0 <= r ->
         (cy exact + r <= h - r * 2 ->
          (r <= cy exact /\ cy exact < r * 2 -> vy pos == cy exact + r)
          /\ (cy exact < r -> vy pos == cy exact + r * 2))
         /\ (r * 2 <= cy exact - r ->
             (h - r * 2 < cy exact /\ cy exact <= h - r ->
              vy pos == cy exact - r)
             /\ (h - r < cy exact -> vy pos == cy exact - r * 2))))
  /\ (forall fuel pos,
        calcPosition fuel this rnd container position0 zIndex 0
        = Returned pos ->
        exists j,
          pos = attempt this rnd container position0 zIndex j
          /\ checkOverlap this container pos j = Returned false
          /\ forall i, (i < j)%nat ->
               checkOverlap this container
                 (attempt this rnd container position0 zIndex i) i
               = Returned true)
  /\ (forall j fuel,
        (forall i, (i < j)%nat ->
           checkOverlap this container
             (attempt this rnd container position0 zIndex i) i
           = Returned true) ->
        checkOverlap this container
          (attempt this rnd container position0 zIndex j) j
        = Returned false ->
        calcPosition (S (j + fuel)) this rnd container position0 zIndex 0
        = Returned (attempt this rnd container position0 zIndex j)).
Proof.
  intros Hp Hl Hr Ht Hb r w h. split; [|split].
  - intros k exact pos. subst pos exact.
    unfold attempt, candidate, exactAt.
    rewrite Hl, Hr, Ht, Hb. fold r.
    set (exact := NumberUtils.calcExactPositionOrRandomFromSize _ _ _).
    set (p0 := Vector3d_.create (cx exact) (cy exact) zIndex).
    set (p1 := fixHorizontal container r OutMode_bounce p0).
    set (p2 := fixHorizontal container r OutMode_bounce p1).
    set (p3 := fixVertical container r OutMode_bounce p2).
    set (p4 := fixVertical container r OutMode_bounce p3).
    destruct (fixHorizontal_bounce container r p0) as (X1 & Y1 & Z1).
    destruct (fixHorizontal_bounce container r p1) as (X2 & Y2 & Z2).
    destruct (fixVertical_bounce container r p2) as (Y3 & X3 & Z3).
    destruct (fixVertical_bounce container r p3) as (Y4 & X4 & Z4).
    fold p1 in X1, Y1, Z1, X2, Y2, Z2. fold p2 in X2, Y2, Z2, Y3, X3, Z3.
    fold p3 in Y3, X3, Z3, Y4, X4, Z4. fold p4 in Y4, X4, Z4.
    fold w in X1, X2. fold h in Y3, Y4.
    assert (Hx : vx p4 = vx p2) by congruence.
    assert (Hy : vy p2 = cy exact) by (rewrite Y2, Y1; reflexivity).
    change (vx p0) with (cx exact) in X1.
    rewrite Hy in Y3. rewrite Hx.
    split; [rewrite Z4, Z3, Z2, Z1; reflexivity|].
    split; [exists (vx p1); split; assumption|].
    split; [exists (vy p3); split; assumption|].
    split; intros Hr0.
    + exact (edgeCheck_twice w r (cx exact) (vx p1) (vx p2) X1 X2 Hr0).
    + exact (edgeCheck_twice h r (cy exact) (vy p3) (vy p4) Y3 Y4 Hr0).
  - intros fuel pos Hres.
    destruct (calcPosition_returns_first this rnd container position0 zIndex
                Hp fuel 0%nat pos Hres) as (j & _ & Hpos & Hfree & Hrej).
    exists j. split; [exact Hpos|]. split; [exact Hfree|].
    intros i Hi. apply Hrej. lia.
  - intros j fuel Hrej Hacc.
    exact (calcPosition_first_accepted this rnd container position0 zIndex
             Hp j 0%nat fuel (fun i Hi => Hrej i (proj2 Hi)) Hacc).
Qed.

End Placement.

(* ------------------------------------------------------------------ *)
(** ** Placement, evaluated *)

(** Runs the first construction of the goal that has all its arguments,
    and gives its result to the existential that awaits it. *)
Ltac constructed :=
  match goal with
  | |- context [Scenario.construct ?rnd ?i ?container ?position0] =>
      let E := fresh "E" in
      destruct (Scenario.construct rnd i container position0)
        as [?c| |] eqn:E;
      [ vm_compute in E; injection E as <-;
        eapply ex_intro; split; [reflexivity|]
      | vm_compute in E; discriminate E .. ]
  end.

(** A position that a plugin supplies is returned as it is, also onto an
    existing particle: with collision detection enabled, overlap
    disallowed and no retry allowed, the newcomer of radius 5 is placed
    at (100, 100), where the resident of radius 5 sits, and nothing is
    raised. *)
Lemma plugin_position_may_overlap :
  collisions_enable (opt_collisions (options (Scenario.newcomer 0))) = true
  /\ overlap_enable
       (collisions_overlap (opt_collisions (options (Scenario.newcomer 0))))
     = false
  /\ overlap_retries
       (collisions_overlap (opt_collisions (options (Scenario.newcomer 0))))
     = 0%Z
  /\ calcPosition 2 (Scenario.newcomer 0) Scenario.centred
       (Scenario.crowd 0 [("pin"%string, Scenario.pinning 100 100)])
       None 0 0
     = Returned (Vector3d_.create 100 100 0)
  /\ In (Scenario.resident 0)
       (array (particles
                 (Scenario.crowd 0
                    [("pin"%string, Scenario.pinning 100 100)])))
  /\ ~ NumberUtils.distance_ge 100 100
         (vx (position (Scenario.resident 0)))
         (vy (position (Scenario.resident 0)))
         (getRadius (Scenario.newcomer 0) + getRadius (Scenario.resident 0)).
Proof.
  repeat split.
  - left. reflexivity.
  - intros [H|H]; vm_compute in H; apply H; reflexivity.
Qed.

Lemma calcPosition_overlap_retries_witness :
  exists pos,
    calcPosition 3 (Scenario.newcomer 1) Scenario.centred
      (Scenario.crowd 1 [("listener"%string, Scenario.listening)])
      Scenario.onResident 0 0 = Returned pos
    /\ forall particle,
         In particle
           (array (particles
                     (Scenario.crowd 1
                        [("listener"%string, Scenario.listening)]))) ->
         NumberUtils.distance_ge (vx pos) (vy pos)
           (vx (position particle)) (vy (position particle))
           (getRadius (Scenario.newcomer 1) + getRadius particle).
Proof.
  destruct (proj1 (calcPosition_overlap_retries (Scenario.newcomer 1)
                     Scenario.centred
                     (Scenario.crowd 1
                        [("listener"%string, Scenario.listening)])
                     Scenario.onResident 0
                     eq_refl eq_refl (fun _ => eq_refl))
              1%nat eq_refl 3%nat (le_n 3))
    as [(pos & k & Hres & _ & _ & _ & Hfar)|(Hres & _)].
  - exists pos. split; [exact Hres|exact Hfar].
  - vm_compute in Hres. discriminate Hres.
Defined.

(** The same placement, evaluated: the explicit position is on the
    resident and is rejected, the retry samples the centre of the
    canvas. *)
Example placement_retry :
  exists pos,
    calcPosition 3 (Scenario.newcomer 1) Scenario.centred
      (Scenario.crowd 1 [("listener"%string, Scenario.listening)])
      Scenario.onResident 0 0
    = Returned pos
    /\ vx pos == 400 /\ vy pos == 300 /\ vz pos == 0.
Proof. eexists. split; [reflexivity|]. repeat split. Qed.

(** Without a retry the same placement is exhausted by the second call. *)
Example placement_exhausted :
  calcPosition 3 (Scenario.newcomer 0) Scenario.centred
    (Scenario.crowd 0 [("listener"%string, Scenario.listening)])
    Scenario.onResident 0 0
  = Thrown PlacementExhausted.
Proof. reflexivity. Qed.

(** Canvas 800 x 600, a particle of radius 10 placed at (0, 0), bounce
    on all edges: the particle ends at (20, 20), two radii from where it
    was put and not one, for the left and the right check both find x
    below two radii, and the top and the bottom check both find y so. *)
Lemma bounce_scenario_two_radii :
  calcPosition 1 Scenario.bouncer Scenario.noDraws Scenario.canvas
    Scenario.corner 0 0
  = Returned (Vector3d_.create 20 20 0)
  /\ (exists c,
        Scenario.construct Scenario.noDraws 0 Scenario.canvas Scenario.corner
        = Returned c
        /\ getRadius (new_particle c) = 10
        /\ position (new_particle c) = Vector3d_.create 20 20 0)
  /\ ~ 20 == 0 + 10.
Proof.
  split; [reflexivity|]. split.
  - constructed. vm_compute. repeat split.
  - intros H. vm_compute in H. discriminate H.
Qed.

Lemma calcPosition_bounce_edges_witness :
  (exists pos,
      calcPosition 1 Scenario.bouncer Scenario.noDraws Scenario.canvas
        Scenario.corner 0 0 = Returned pos
      /\ vx pos == 0 + 10 * 2
      /\ vy pos == 0 + 10 * 2)
  /\ (exists pos,
        calcPosition 2 (Scenario.jostler 1) Scenario.nearLeft
          (Scenario.corral 1) Scenario.corner 0 0 = Returned pos
        /\ pos = attempt (Scenario.jostler 1) Scenario.nearLeft
                  (Scenario.corral 1) Scenario.corner 0 1
        /\ vx pos == 10 + 10).
Proof.
  split.
  - destruct (calcPosition_bounce_edges Scenario.bouncer Scenario.noDraws
                Scenario.canvas Scenario.corner 0
                (fun _ => eq_refl) eq_refl eq_refl eq_refl eq_refl)
      as (Hall & _ & Hfirst).
    exists (attempt Scenario.bouncer Scenario.noDraws Scenario.canvas
              Scenario.corner 0 0).
    split; [apply (Hfirst 0%nat 0%nat); [intros i Hi; lia|reflexivity]|].
    destruct (Hall 0%nat) as (_ & _ & _ & Hx & Hy). split.
    + apply Hx; vm_compute; (discriminate || reflexivity).
    + apply Hy; vm_compute; (discriminate || reflexivity).
  - destruct (calcPosition_bounce_edges (Scenario.jostler 1)
                Scenario.nearLeft (Scenario.corral 1) Scenario.corner 0
                (fun _ => eq_refl) eq_refl eq_refl eq_refl eq_refl)
      as (Hall & _ & Hfirst).
    exists (attempt (Scenario.jostler 1) Scenario.nearLeft
              (Scenario.corral 1) Scenario.corner 0 1).
    split.
    { apply (Hfirst 1%nat 0%nat); [|reflexivity].
      intros [|i] Hi; [reflexivity|lia]. }
    split; [reflexivity|].
    destruct (Hall 1%nat) as (_ & _ & _ & Hx & _).
    assert (Hone : vx (attempt (Scenario.jostler 1) Scenario.nearLeft
                         (Scenario.corral 1) Scenario.corner 0 1)
                   == cx (exactAt Scenario.nearLeft (Scenario.corral 1)
                            Scenario.corner 1)
                      + getRadius (Scenario.jostler 1)).
    { apply Hx; vm_compute; repeat split; (discriminate || reflexivity). }
    rewrite Hone. vm_compute. reflexivity.
Defined.

Lemma calcPosition_plugin_position_witness :
  exists p,
    forall fuel rnd zIndex tryCount,
      calcPosition (S fuel) (Scenario.newcomer 0) rnd
        (Scenario.crowd 0
           [("listener"%string, Scenario.listening);
            ("pin"%string, Scenario.pinning 7 9)])
        None zIndex tryCount
      = Returned (Vector3d_.create (cx p) (cy p) zIndex).
Proof.
  destruct (calcPosition_plugin_position (Scenario.newcomer 0)
              (Scenario.crowd 0
                 [("listener"%string, Scenario.listening);
                  ("pin"%string, Scenario.pinning 7 9)])
              None)
    as (before & entry & after & hook & p & _ & _ & _ & _ & Hres).
  - exists ("pin"%string, Scenario.pinning 7 9),
      (fun _ _ => Some {| cx := 7; cy := 9 |}), {| cx := 7; cy := 9 |}.
    split; [right; left; reflexivity|]. split; reflexivity.
  - exists p. exact Hres.
Defined.

(** The position of the plugin is where the particle goes. *)
Example plugin_position_taken :
  calcPosition 1 (Scenario.newcomer 0) Scenario.centred
    (Scenario.crowd 0
       [("listener"%string, Scenario.listening);
        ("pin"%string, Scenario.pinning 7 9)])
    None 3 0
  = Returned (Vector3d_.create 7 9 3).
Proof. reflexivity. Qed.

(* ------------------------------------------------------------------ *)
(** ** Properties of construction *)

Section Construction.

Context {Overrides : Type}.
Local Abbreviation Particle := (@Particle Overrides).
Local Abbreviation Container := (@Container Overrides).

Variable ov_shape : Overrides -> option (@IShapeOverride Overrides).
Variable loadOptions :
  @IParticlesOptions Overrides -> option Overrides
  -> @IParticlesOptions Overrides.
Variable loadShape : @IShapeOverride Overrides -> @IShape Overrides.

Local Abbreviation construct := (constructor ov_shape loadOptions loadShape).

Implicit Types (this : Particle) (container : Container) (rnd : Random).

Lemma fixHorizontal_z container (r : Q) (mode : OutMode) (pos : Vector3d) :
  vz (fixHorizontal container r mode pos) = vz pos.
Proof.
  unfold fixHorizontal, fixOutMode. cbn [setCb].
  destruct (negb _); [reflexivity|].
  destruct (JSNum.gtb _ _); [reflexivity|].
  destruct (JSNum.ltb _ _); reflexivity.
Qed.

Lemma fixVertical_z container (r : Q) (mode : OutMode) (pos : Vector3d) :
  vz (fixVertical container r mode pos) = vz pos.
Proof.
  unfold fixVertical, fixOutMode. cbn [setCb].
  destruct (negb _); [reflexivity|].
  destruct (JSNum.gtb _ _); [reflexivity|].
  destruct (JSNum.ltb _ _); reflexivity.
Qed.

(** Whatever [calcPosition] returns lies at the z it was given. *)
Lemma calcPosition_z this rnd container zIndex :
  forall fuel position k pos,
    calcPosition fuel this rnd container position zIndex k = Returned pos ->
    vz pos = zIndex.
Proof.
  induction fuel as [|fuel IH]; intros position k pos; [discriminate|].
  cbn [calcPosition].
  destruct (pluginPosition _ _ _) as [p|].
  - intros H. injection H as <-. reflexivity.
  - destruct (checkOverlap _ _ _ _) as [[|]| |]; try discriminate.
    + apply IH.
    + intros H. injection H as <-. unfold candidate.
      rewrite !fixVertical_z, !fixHorizontal_z. reflexivity.
Qed.

(** What a construction that returns has built. *)
Lemma constructor_returned fuel rnd this_id container position0
    overrideOptions this_group c :
  construct fuel rnd this_id container position0 overrideOptions this_group
  = Returned c ->
  let shaped :=
    initShape ov_shape loadShape rnd this_id
      (actualOptions_particles container) overrideOptions in
  let opts :=
    loadOptions
      (loadOptions (actualOptions_particles container) overrideOptions)
      (match snd shaped with Some d => sv_particles d | None => None end) in
  destroyed (new_particle c) = false
  /\ unbreakable (new_particle c) = false
  /\ splitCount (new_particle c) = 0%Z
  /\ shape (new_particle c) = fst shaped
  /\ options (new_particle c) = opts
  /\ size (new_particle c)
     = initSize rnd container opts
         (initParticle (container_retina container) opts)
  /\ vz (position (new_particle c))
     = NumberUtils.clamp
         (NumberUtils.getRangeValue (opt_zIndex opts) (u_zIndex rnd))
         0 (zLayers container)
  /\ particles (new_container c)
     = trackZ (particles container) (vz (position (new_particle c))).
Proof.
  unfold constructor.
  destruct (initShape ov_shape loadShape rnd this_id
              (actualOptions_particles container) overrideOptions)
    as [this_shape this_shapeData].
  cbn [fst snd].
  destruct (calcPosition _ _ _ _ _ _ _) as [pos| |] eqn:E; try discriminate.
  intros H. injection H as <-. cbn.
  repeat split.
  exact (calcPosition_z _ _ _ _ _ _ _ _ E).
Qed.

(** The state of the size animation at its start, for each start value. *)
Lemma initSize_started rnd container (opts : @IParticlesOptions Overrides)
    (props : IParticleRetinaProps) :
  anim_enable (size_animation (opt_size opts)) = true ->
  let pxRatio := pixelRatio (container_retina container) in
  let lo := NumberUtils.getRangeMin (size_value (opt_size opts)) * pxRatio in
  let hi := NumberUtils.getRangeMax (size_value (opt_size opts)) * pxRatio in
  let s := initSize rnd container opts props in
  min s = lo /\ max s = hi
  /\ match anim_startValue (size_animation (opt_size opts)) with
     | StartValueType_min =>
         value s = lo /\ status s = Some AnimationStatus_increasing
     | StartValueType_max =>
         value s = hi /\ status s = Some AnimationStatus_decreasing
     | StartValueType_random =>
         value s
         = NumberUtils.randomInRange (RRange lo hi) (u_sizeStart rnd) * pxRatio
         /\ status s
            = Some (if JSNum.geb (u_sizeStatus rnd) (1 # 2)
                    then AnimationStatus_increasing
                    else AnimationStatus_decreasing)
     end.
Proof.
  intros He. unfold initSize. rewrite He. cbn zeta.
  destruct (anim_startValue (size_animation (opt_size opts)));
    cbn; repeat split.
Qed.

Lemma itemFromArray_by_id {A : Type} (l : list A) (i : Z) (u : Q) :
  (0 <= i)%Z -> l <> [] ->
  Utils.itemFromArray l (Some i) false u
  = nth_error l (Z.to_nat (i mod Z.of_nat (List.length l))).
Proof.
  intros Hi Hl. unfold Utils.itemFromArray.
  destruct l as [|x l]; [contradiction|].
  set (n := Z.of_nat (List.length (x :: l))).
  assert (Hn : (0 < n)%Z) by (subst n; cbn [List.length]; lia).
  rewrite Z.rem_mod_nonneg by lia.
  unfold Utils.index.
  pose proof (Z.mod_pos_bound i n Hn) as Hb.
  destruct (Z.ltb_spec (i mod n) 0); [lia|reflexivity].
Qed.

(** The shape of lines 293 to 306, when candidates are in force and
    duplicates are not reduced. *)
Lemma initShape_by_id rnd (i : Z) (opts : @IParticlesOptions Overrides)
    (overrideOptions : option Overrides) (candidates : list string) :
  opt_reduceDuplicates opts = false ->
  shapeTypeInForce ov_shape opts overrideOptions = Multiple candidates ->
  (0 <= i)%Z -> candidates <> [] ->
  fst (initShape ov_shape loadShape rnd i opts overrideOptions)
  = nth_error candidates
      (Z.to_nat (i mod Z.of_nat (List.length candidates))).
Proof.
  intros Hrd Hforce Hi Hne. unfold initShape, shapeTypeInForce in *.
  rewrite Hrd.
  destruct (match overrideOptions with
            | Some o => ov_shape o
            | None => None
            end) as [overrideShape|].
  - cbn [fst].
    destruct (so_type overrideShape) as [t|].
    + destruct (truthyType (Some t)).
      * subst t. apply itemFromArray_by_id; assumption.
      * rewrite Hforce. apply itemFromArray_by_id; assumption.
    + cbn [truthyType]. rewrite Hforce.
      apply itemFromArray_by_id; assumption.
  - cbn [fst]. rewrite Hforce. apply itemFromArray_by_id; assumption.
Qed.

Lemma reset_destroyed this : destroyed (reset this) = destroyed this.
Proof.
  unfold reset. destruct (opacity this); reflexivity.
Qed.

Lemma call_destroyed_kept container rnd (m : Method) this :
  destroyed this = true ->
  destroyed (fst (call container rnd m this)) = true.
Proof.
  intros Hd. destruct m as [override|]; cbn [call fst].
  - rewrite destroy_destroyed, Hd. reflexivity.
  - rewrite reset_destroyed. exact Hd.
Qed.

Lemma destroy_again container rnd (o1 o2 : option bool) this :
  destroy container rnd o2 (fst (destroy container rnd o1 this))
  = (fst (destroy container rnd o1 this), []).
Proof.
  apply destroy_guard.
  rewrite destroy_unbreakable_kept, destroy_destroyed.
  destruct (unbreakable this), (destroyed this); reflexivity.
Qed.

(** C4.  A constructed particle has [destroyed = false]; of the calls on
    a particle only [destroy] makes [destroyed] true; once true it stays
    true, whatever is called; a second [destroy] on the particle a first
    one left changes nothing of it and calls no hook, so that two calls
    in a row do what one does. *)
Theorem destroyed_lifecycle :
  (forall fuel rnd this_id container position0 overrideOptions this_group c,
      construct fuel rnd this_id container position0 overrideOptions
        this_group = Returned c ->
      destroyed (new_particle c) = false)
  /\ (forall container rnd (m : Method) this,
         destroyed this = false ->
         destroyed (fst (call container rnd m this)) = true ->
         exists override, m = M_destroy override)
  /\ (forall container rnd (ms : list Method) this,
         destroyed this = true ->
         destroyed (fst (run container rnd ms this)) = true)
  /\ (forall container rnd (o1 o2 : option bool) this,
         destroy container rnd o2 (fst (destroy container rnd o1 this))
         = (fst (destroy container rnd o1 this), []))
  /\ (forall container rnd (o1 o2 : option bool) this,
         run container rnd [M_destroy o1; M_destroy o2] this
         = run container rnd [M_destroy o1] this).
Proof.
  split; [|split; [|split; [|split]]].
  - intros fuel rnd this_id container position0 overrideOptions this_group c H.
    exact (proj1 (constructor_returned _ _ _ _ _ _ _ _ H)).
  - intros container rnd m this Hd Hd'. destruct m as [override|].
    + exists override. reflexivity.
    + cbn [call fst] in Hd'. rewrite reset_destroyed in Hd'. congruence.
  - intros container rnd ms. induction ms as [|m rest IH]; intros this Hd.
    + exact Hd.
    + cbn [run].
      pose proof (call_destroyed_kept container rnd m this Hd) as Hm.
      destruct (call container rnd m this) as [this' events].
      cbn [fst] in Hm. specialize (IH this' Hm).
      destruct (run container rnd rest this') as [this'' events'].
      exact IH.
  - intros container rnd o1 o2 this. apply destroy_again.
  - intros container rnd o1 o2 this. cbn [run call].
    pose proof (destroy_again container rnd o1 o2 this) as Hagain.
    destruct (destroy container rnd o1 this) as [this' events].
    cbn [fst] in Hagain. rewrite Hagain. reflexivity.
Qed.

(** C7.  When the shape type option in force is an array of candidates
    and "reduce duplicates" is disabled, the shape of the constructed
    particle is the candidate at index (id mod array length), for an id
    that is not negative: the shape depends on the id and the candidates
    alone, neither on the draws nor on anything else of the container, so
    two constructions with the same id and the same candidates choose the
    same shape. *)
Theorem constructor_shape_by_id fuel rnd this_id container position0
    overrideOptions this_group c (candidates : list string) :
  construct fuel rnd this_id container position0 overrideOptions this_group
  = Returned c ->
  opt_reduceDuplicates (actualOptions_particles container) = false ->
  shapeTypeInForce ov_shape (actualOptions_particles container)
    overrideOptions = Multiple candidates ->
  (0 <= this_id)%Z -> candidates <> [] ->
  shape (new_particle c)
  = nth_error candidates
      (Z.to_nat (this_id mod Z.of_nat (List.length candidates))).
Proof.
  intros H Hrd Hforce Hid Hne.
  destruct (constructor_returned _ _ _ _ _ _ _ _ H)
    as (_ & _ & _ & Hshape & _).
  rewrite Hshape. apply initShape_by_id; assumption.
Qed.

(** C8, as amended.  During construction the needs-re-sort flag of the
    set becomes true exactly when it was true already or the z of the new
    particle exceeds the last-z value of the set; the flag, once true,
    stays true; and the last-z value of the set becomes the z of the new
    particle: it is the z of the particle constructed last, whether or
    not an earlier particle lay higher. *)
Theorem constructor_tracks_last_z fuel rnd this_id container position0
    overrideOptions this_group c :
  construct fuel rnd this_id container position0 overrideOptions this_group
  = Returned c ->
  let z := vz (position (new_particle c)) in
  (needsSort (particles (new_container c)) = true <->
   needsSort (particles container) = true
   \/ lastZIndex (particles container) < z)
  /\ (needsSort (particles container) = true ->
      needsSort (particles (new_container c)) = true)
  /\ lastZIndex (particles (new_container c)) = z
  /\ array (particles (new_container c)) = array (particles container).
Proof.
  intros H z.
  destruct (constructor_returned _ _ _ _ _ _ _ _ H)
    as (_ & _ & _ & _ & _ & _ & _ & Hset).
  rewrite Hset. fold z. unfold trackZ.
  cbn [needsSort lastZIndex array].
  rewrite orb_true_iff, JSNumFacts.ltb_lt.
  repeat split; try tauto.
Qed.

End Construction.

(* ------------------------------------------------------------------ *)
(** ** Construction, evaluated *)

Lemma destroyed_lifecycle_witness :
  exists c,
    Scenario.construct Scenario.noDraws 0 Scenario.canvas Scenario.corner
    = Returned c
    /\ destroyed (new_particle c) = false
    /\ destroy Scenario.canvas Scenario.noDraws None
         (fst (destroy Scenario.canvas Scenario.noDraws None (new_particle c)))
       = (fst (destroy Scenario.canvas Scenario.noDraws None (new_particle c)),
          []).
Proof.
  destruct (Scenario.construct Scenario.noDraws 0 Scenario.canvas
              Scenario.corner) as [c| |] eqn:E.
  - exists c. split; [reflexivity|]. split.
    + exact (proj1 (destroyed_lifecycle Scenario.ov_shape
                      Scenario.loadOptions Scenario.loadShape)
               8%nat Scenario.noDraws 0%Z Scenario.canvas Scenario.corner
               None None c E).
    + exact (proj1 (proj2 (proj2 (proj2
               (destroyed_lifecycle Scenario.ov_shape
                  Scenario.loadOptions Scenario.loadShape))))
               Scenario.canvas Scenario.noDraws None None (new_particle c)).
  - vm_compute in E. discriminate E.
  - vm_compute in E. discriminate E.
Defined.

(** The first destruction of a constructed particle marks it, clears the
    bubble range and calls the hook of the listening plugin once; the
    second does nothing. *)
Example destroy_twice :
  exists c,
    Scenario.construct Scenario.noDraws 0 Scenario.canvas Scenario.corner
    = Returned c
    /\ destroyed
         (fst (destroy Scenario.canvas Scenario.noDraws None (new_particle c)))
       = true
    /\ List.length
         (snd (destroy Scenario.canvas Scenario.noDraws None (new_particle c)))
       = 1%nat
    /\ List.length
         (snd (run Scenario.canvas Scenario.noDraws
                 [M_destroy None; M_destroy None] (new_particle c)))
       = 1%nat.
Proof. constructed. vm_compute. repeat split. Qed.

(** Size animation with start value "min", minimum 2 and maximum 10, at
    pixel ratio 1: the constructed size is 2 and increasing; with start
    value "max" it is 10 and decreasing. *)
Example size_start_min :
  exists c,
    Scenario.construct Scenario.noDraws 0
      (Scenario.sized 1 StartValueType_min) None = Returned c
    /\ value (size (new_particle c)) = 2
    /\ status (size (new_particle c)) = Some AnimationStatus_increasing.
Proof. constructed. vm_compute. split; reflexivity. Qed.

Example size_start_max :
  exists c,
    Scenario.construct Scenario.noDraws 0
      (Scenario.sized 1 StartValueType_max) None = Returned c
    /\ value (size (new_particle c)) = 10
    /\ status (size (new_particle c)) = Some AnimationStatus_decreasing.
Proof. constructed. vm_compute. split; reflexivity. Qed.

(** C6, the random start value.  At pixel ratio 2 the size range [2, 10]
    is scaled to [4, 20]; with start value "random" and a draw of 3/4 the
    sample 16 of that range is scaled once more: the constructed size is
    32, above the maximum 20 of its own animation.  The start values
    "min" and "max" take the scaled bounds as they are (4 and 20). *)
Lemma size_random_start_scaled_twice :
  exists c,
    Scenario.construct (Scenario.draws (3 # 4) (fun _ => (1 # 2, 1 # 2))) 0
      (Scenario.sized 2 StartValueType_random) None = Returned c
    /\ min (size (new_particle c)) == 4
    /\ max (size (new_particle c)) == 20
    /\ value (size (new_particle c)) == 32
    /\ status (size (new_particle c)) = Some AnimationStatus_increasing
    /\ ~ value (size (new_particle c)) <= max (size (new_particle c)).
Proof.
  constructed. vm_compute. repeat split.
  intros H. apply H. reflexivity.
Qed.

Lemma constructor_shape_by_id_witness :
  (exists c,
      Scenario.construct Scenario.noDraws 0 Scenario.shaped None = Returned c
      /\ shape (new_particle c) = Some "circle"%string)
  /\ (exists c,
        Scenario.construct Scenario.noDraws 1 Scenario.shaped None = Returned c
        /\ shape (new_particle c) = Some "square"%string)
  /\ (exists c,
        Scenario.construct Scenario.centred 2 Scenario.shaped None = Returned c
        /\ shape (new_particle c) = Some "circle"%string).
Proof.
  split; [|split].
  - destruct (Scenario.construct Scenario.noDraws 0 Scenario.shaped None)
      as [c| |] eqn:E; [|vm_compute in E; discriminate E ..].
    exists c. split; [reflexivity|].
    exact (constructor_shape_by_id Scenario.ov_shape Scenario.loadOptions
             Scenario.loadShape 8%nat Scenario.noDraws 0%Z Scenario.shaped
             None None None c ["circle"%string; "square"%string]
             E eq_refl eq_refl ltac:(discriminate) ltac:(discriminate)).
  - destruct (Scenario.construct Scenario.noDraws 1 Scenario.shaped None)
      as [c| |] eqn:E; [|vm_compute in E; discriminate E ..].
    exists c. split; [reflexivity|].
    exact (constructor_shape_by_id Scenario.ov_shape Scenario.loadOptions
             Scenario.loadShape 8%nat Scenario.noDraws 1%Z Scenario.shaped
             None None None c ["circle"%string; "square"%string]
             E eq_refl eq_refl ltac:(discriminate) ltac:(discriminate)).
  - destruct (Scenario.construct Scenario.centred 2 Scenario.shaped None)
      as [c| |] eqn:E; [|vm_compute in E; discriminate E ..].
    exists c. split; [reflexivity|].
    exact (constructor_shape_by_id Scenario.ov_shape Scenario.loadOptions
             Scenario.loadShape 8%nat Scenario.centred 2%Z Scenario.shaped
             None None None c ["circle"%string; "square"%string]
             E eq_refl eq_refl ltac:(discriminate) ltac:(discriminate)).
Defined.

(** The last-z value of the set follows the particle constructed last.
    From an empty set with last z 0: a particle at z = 5, then one at
    z = 3, and the last z is 3, below the 5 seen before.  And in a set
    whose flag is false and whose last z is 10, particles at z = 5, 3 and
    4: the flag is still false after the second and true after the third,
    whose z = 4 does not exceed the 5 of the first. *)
Lemma last_z_is_no_high_water_mark :
  (exists c1,
      Scenario.construct (Scenario.zDraw (1 # 2)) 0
        (Scenario.layers false 0) None = Returned c1
      /\ exists c2,
          Scenario.construct (Scenario.zDraw (3 # 10)) 1
            (new_container c1) None = Returned c2
          /\ vz (position (new_particle c1)) == 5
          /\ vz (position (new_particle c2)) == 3
          /\ lastZIndex (particles (new_container c2))
             < vz (position (new_particle c1)))
  /\ (exists c1,
        Scenario.construct (Scenario.zDraw (1 # 2)) 0
          (Scenario.layers false 10) None = Returned c1
        /\ exists c2,
            Scenario.construct (Scenario.zDraw (3 # 10)) 1
              (new_container c1) None = Returned c2
            /\ exists c3,
                Scenario.construct (Scenario.zDraw (2 # 5)) 2
                  (new_container c2) None = Returned c3
                /\ needsSort (particles (new_container c2)) = false
                /\ vz (position (new_particle c3)) == 4
                /\ vz (position (new_particle c3))
                   < vz (position (new_particle c1))
                /\ needsSort (particles (new_container c3)) = true).
Proof.
  split.
  - constructed. constructed. vm_compute. repeat split.
  - constructed. constructed. constructed. vm_compute. repeat split.
Qed.

Lemma constructor_tracks_last_z_witness :
  exists c,
    Scenario.construct (Scenario.zDraw (3 # 10)) 1
      (Scenario.layers false 5) None = Returned c
    /\ needsSort (particles (new_container c)) = false
    /\ lastZIndex (particles (new_container c)) == 3.
Proof.
  destruct (Scenario.construct (Scenario.zDraw (3 # 10)) 1
              (Scenario.layers false 5) None) as [c| |] eqn:E;
    [|vm_compute in E; discriminate E ..].
  exists c. split; [reflexivity|].
  destruct (constructor_tracks_last_z Scenario.ov_shape Scenario.loadOptions
              Scenario.loadShape 8%nat (Scenario.zDraw (3 # 10)) 1%Z
              (Scenario.layers false 5) None None None c E)
    as (Hflag & _ & Hlast & _).
  vm_compute in E. injection E as <-.
  split; [reflexivity|]. rewrite Hlast. reflexivity.
Defined.

(* ------------------------------------------------------------------ *)
(** ** More on placement *)

Section PlacementFacts.

Context {Overrides : Type}.
Local Abbreviation Particle := (@Particle Overrides).
Local Abbreviation Container := (@Container Overrides).

Implicit Types (this : Particle) (container : Container) (rnd : Random).

Lemma fixHorizontal_unchecked container (r : Q) (mode : OutMode)
    (pos : Vector3d) :
  Utils.isInArray OutMode_eqb mode [OutMode_bounce; OutMode_bounceHorizontal]
  = false ->
  fixHorizontal container r mode pos = pos.
Proof.
  intros H. unfold fixHorizontal, fixOutMode.
  cbn [outMode checkModes]. rewrite H. reflexivity.
Qed.

Lemma fixVertical_unchecked container (r : Q) (mode : OutMode)
    (pos : Vector3d) :
  Utils.isInArray OutMode_eqb mode [OutMode_bounce; OutMode_bounceVertical]
  = false ->
  fixVertical container r mode pos = pos.
Proof.
  intros H. unfold fixVertical, fixOutMode.
  cbn [outMode checkModes]. rewrite H. reflexivity.
Qed.

(** One call of [fixHorizontal], whatever the mode: x stays or makes one
    [edgeCheck] step, y stays. *)
Lemma fixHorizontal_step container (r : Q) (mode : OutMode) (pos : Vector3d) :
  (vx (fixHorizontal container r mode pos) = vx pos
   \/ edgeCheck (width (canvas_size container)) r (vx pos)
        (vx (fixHorizontal container r mode pos)))
  /\ vy (fixHorizontal container r mode pos) = vy pos.
Proof.
  unfold fixHorizontal, fixOutMode, edgeCheck.
  cbn [outMode checkModes coord maxCoord radius setCb].
  destruct (negb _); [split; [left|]; reflexivity|].
  destruct (JSNum.gtb (vx pos) (width (canvas_size container) - r * 2))
    eqn:G.
  - apply JSNumFacts.gtb_gt in G. cbn. split; [|reflexivity].
    right. left. split; [exact G|reflexivity].
  - apply JSNumFacts.gtb_le in G.
    destruct (JSNum.ltb (vx pos) (r * 2)) eqn:L.
    + apply JSNumFacts.ltb_lt in L. cbn. split; [|reflexivity].
      right. right. left. repeat split; try assumption; reflexivity.
    + split; [left|]; reflexivity.
Qed.

Lemma fixVertical_step container (r : Q) (mode : OutMode) (pos : Vector3d) :
  (vy (fixVertical container r mode pos) = vy pos
   \/ edgeCheck (height (canvas_size container)) r (vy pos)
        (vy (fixVertical container r mode pos)))
  /\ vx (fixVertical container r mode pos) = vx pos.
Proof.
  unfold fixVertical, fixOutMode, edgeCheck.
  cbn [outMode checkModes coord maxCoord radius setCb].
  destruct (negb _); [split; [left|]; reflexivity|].
  destruct (JSNum.gtb (vy pos) (height (canvas_size container) - r * 2))
    eqn:G.
  - apply JSNumFacts.gtb_gt in G. cbn. split; [|reflexivity].
    right. left. split; [exact G|reflexivity].
  - apply JSNumFacts.gtb_le in G.
    destruct (JSNum.ltb (vy pos) (r * 2)) eqn:L.
    + apply JSNumFacts.ltb_lt in L. cbn. split; [|reflexivity].
      right. right. left. repeat split; try assumption; reflexivity.
    + split; [left|]; reflexivity.
Qed.

(** Without a plugin position, what a placement returns is one of its
    candidates, the one its overlap check let pass. *)
Lemma calcPosition_returns_attempt this rnd container position0 zIndex :
  (forall position, pluginPosition (plugins container) position this = None) ->
  forall fuel k pos,
    calcPosition fuel this rnd container (positionAt position0 k) zIndex k
    = Returned pos ->
    exists j, (k <= j)%nat
              /\ pos = attempt this rnd container position0 zIndex j
              /\ checkOverlap this container pos j = Returned false.
Proof.
  intros Hp. induction fuel as [|fuel IH]; intros k pos; [discriminate|].
  rewrite calcPosition_step by apply Hp.
  destruct (checkOverlap this container
              (attempt this rnd container position0 zIndex k) k)
    as [[|]| |] eqn:E; try discriminate.
  - intros H. destruct (IH (S k) pos H) as (j & Hj & Hpos & Hfree).
    exists j. repeat split; try assumption. lia.
  - intros H. injection H as <-. exists k. repeat split; [lia|exact E].
Qed.

Lemma fixHorizontal_interior container (r : Q) (mode : OutMode)
    (pos : Vector3d) :
  r * 2 <= vx pos -> vx pos <= width (canvas_size container) - r * 2 ->
  fixHorizontal container r mode pos = pos.
Proof.
  intros Hlo Hhi. unfold fixHorizontal, fixOutMode.
  cbn [outMode checkModes coord maxCoord radius setCb].
  destruct (negb _); [reflexivity|].
  apply JSNumFacts.gtb_le in Hhi. rewrite Hhi.
  apply JSNumFacts.ltb_ge in Hlo. rewrite Hlo. reflexivity.
Qed.

Lemma fixVertical_interior container (r : Q) (mode : OutMode)
    (pos : Vector3d) :
  r * 2 <= vy pos -> vy pos <= height (canvas_size container) - r * 2 ->
  fixVertical container r mode pos = pos.
Proof.
  intros Hlo Hhi. unfold fixVertical, fixOutMode.
  cbn [outMode checkModes coord maxCoord radius setCb].
  destruct (negb _); [reflexivity|].
  apply JSNumFacts.gtb_le in Hhi. rewrite Hhi.
  apply JSNumFacts.ltb_ge in Hlo. rewrite Hlo. reflexivity.
Qed.

(** The coordinates of a candidate: each comes from the exact or sampled
    one by the two calls for its axis. *)
Lemma candidate_steps container this position zIndex (u : Q * Q) :
  let exact :=
    NumberUtils.calcExactPositionOrRandomFromSize (canvas_size container)
      position u in
  let pos := candidate container this position zIndex u in
  (exists x1,
      edgeStep (width (canvas_size container)) (getRadius this)
        (cx exact) x1
      /\ edgeStep (width (canvas_size container)) (getRadius this)
           x1 (vx pos))
  /\ (exists y1,
        edgeStep (height (canvas_size container)) (getRadius this)
          (cy exact) y1
        /\ edgeStep (height (canvas_size container)) (getRadius this)
             y1 (vy pos)).
Proof.
  cbv zeta. unfold candidate, edgeStep.
  set (exact := NumberUtils.calcExactPositionOrRandomFromSize _ _ _).
  set (r := getRadius this).
  set (om := opt_outModes (options this)).
  set (p0 := Vector3d_.create (cx exact) (cy exact) zIndex).
  set (p1 := fixHorizontal container r _ p0).
  set (p2 := fixHorizontal container r _ p1).
  set (p3 := fixVertical container r _ p2).
  set (p4 := fixVertical container r _ p3).
  destruct (fixHorizontal_step container r
              (orElse (outModes_left om) (outModes_default om)) p0)
    as (X1 & Y1).
  destruct (fixHorizontal_step container r
              (orElse (outModes_right om) (outModes_default om)) p1)
    as (X2 & Y2).
  destruct (fixVertical_step container r
              (orElse (outModes_top om) (outModes_default om)) p2)
    as (Y3 & X3).
  destruct (fixVertical_step container r
              (orElse (outModes_bottom om) (outModes_default om)) p3)
    as (Y4 & X4).
  fold p1 in X1, Y1, X2, Y2. fold p2 in X2, Y2, X3, Y3.
  fold p3 in X3, Y3, X4, Y4. fold p4 in X4, Y4.
  split.
  - exists (vx p1). split; [exact X1|].
    replace (vx p4) with (vx p2) by congruence. exact X2.
  - exists (vy p3). split.
    + replace (cy exact) with (vy p2); [exact Y3|].
      rewrite Y2, Y1. reflexivity.
    + exact Y4.
Qed.

(** Two calls in a row for a coordinate on the canvas: with a canvas of
    two radii or more the result is within one radius of the canvas. *)
Lemma edgeStep_twice_near (m r c c1 c2 : Q) :
  edgeStep m r c c1 -> edgeStep m r c1 c2 ->
  0 <= r -> r * 2 <= m -> 0 <= c -> c <= m ->
  - r <= c2 /\ c2 <= m + r.
Proof.
  unfold edgeStep, edgeCheck.
  intros [->|[[A1 B1]|[[A1 [A1' B1]]|[A1 [A1' B1]]]]]
         [->|[[A2 B2]|[[A2 [A2' B2]]|[A2 [A2' B2]]]]] Hr Hm Hc0 Hcm;
    split; lra.
Qed.

(** Two edge checks in a row for a coordinate on the canvas: with a
    canvas of five radii or more the result is two radii inside. *)
Lemma edgeCheck_twice_inside (m r c c1 c2 : Q) :
  edgeCheck m r c c1 -> edgeCheck m r c1 c2 ->
  0 <= r -> r * 5 <= m -> 0 <= c -> c <= m ->
  r * 2 <= c2 /\ c2 <= m - r * 2.
Proof.
  unfold edgeCheck.
  intros [[A1 B1]|[[A1 [A1' B1]]|[A1 [A1' B1]]]]
         [[A2 B2]|[[A2 [A2' B2]]|[A2 [A2' B2]]]] Hr Hm Hc0 Hcm;
    split; lra.
Qed.

(** The exact or sampled position lies on the canvas when the explicit
    position does and the draws are draws. *)
Lemma exactAt_onCanvas rnd container (position0 : option ICoordinates)
    (k : nat) :
  0 <= width (canvas_size container) ->
  0 <= height (canvas_size container) ->
  match position0 with Some p => onCanvas container p | None => True end ->
  (forall j, JSNum.unit_draw (fst (u_position rnd j))
             /\ JSNum.unit_draw (snd (u_position rnd j))) ->
  onCanvas container (exactAt rnd container position0 k).
Proof.
  intros Hw Hh Hexplicit Hdraws.
  unfold exactAt, NumberUtils.calcExactPositionOrRandomFromSize, onCanvas.
  assert (Hsampled :
            0 <= fst (u_position rnd k) * width (canvas_size container)
            /\ fst (u_position rnd k) * width (canvas_size container)
               <= width (canvas_size container)
            /\ 0 <= snd (u_position rnd k) * height (canvas_size container)
            /\ snd (u_position rnd k) * height (canvas_size container)
               <= height (canvas_size container)).
  { destruct (Hdraws k) as [[Ha Ha'] [Hb Hb']].
    repeat split; nra. }
  destruct k as [|k]; cbn [positionAt].
  - destruct position0 as [p|]; cbn [cx cy]; [exact Hexplicit|exact Hsampled].
  - cbn [cx cy]. exact Hsampled.
Qed.

Lemma checkOverlap_thrown this container (pos : Vector3d) (k : nat)
    (message : string) :
  checkOverlap this container pos k = Thrown message ->
  message = PlacementExhausted
  /\ collisions_enable (opt_collisions (options this)) = true
  /\ overlap_enable (collisions_overlap (opt_collisions (options this)))
     = false
  /\ (0 <= overlap_retries
             (collisions_overlap (opt_collisions (options this)))
       < Z.of_nat k)%Z.
Proof.
  unfold checkOverlap.
  destruct (collisions_enable _); [|discriminate].
  destruct (overlap_enable _); [discriminate|].
  set (retries := overlap_retries _).
  destruct (Z.geb_spec retries 0) as [Hge|Hlt]; [|discriminate].
  destruct (Z.gtb_spec (Z.of_nat k) retries) as [Hgt|Hle]; [|discriminate].
  cbn [andb negb]. intros Heq. injection Heq as <-.
  repeat split; lia.
Qed.

Lemma checkOverlap_rejects this container (pos : Vector3d) (k : nat) :
  checkOverlap this container pos k = Returned true ->
  array (particles container) <> [].
Proof.
  unfold checkOverlap.
  destruct (collisions_enable _); [|discriminate].
  destruct (overlap_enable _); [discriminate|].
  destruct (_ && _)%bool; [discriminate|].
  cbn [negb]. intros H Hempty. rewrite Hempty in H. discriminate H.
Qed.

(** X1.  Placement moves a coordinate only under a bounce mode of its
    axis: when neither the left nor the right out mode is "bounce" or
    "bounce-horizontal", the x of a position that no plugin supplied is
    the explicit or sampled x of one of the attempts, unchanged; likewise
    y when neither the top nor the bottom out mode is "bounce" or
    "bounce-vertical". *)
Theorem placement_moves_bounce_axes_only this rnd container position0
    zIndex fuel (pos : Vector3d) :
  (forall position, pluginPosition (plugins container) position this = None) ->
  calcPosition fuel this rnd container position0 zIndex 0 = Returned pos ->
  exists j,
    (Utils.isInArray OutMode_eqb
       (orElse (outModes_left (opt_outModes (options this)))
          (outModes_default (opt_outModes (options this))))
       [OutMode_bounce; OutMode_bounceHorizontal] = false ->
     Utils.isInArray OutMode_eqb
       (orElse (outModes_right (opt_outModes (options this)))
          (outModes_default (opt_outModes (options this))))
       [OutMode_bounce; OutMode_bounceHorizontal] = false ->
     vx pos = cx (exactAt rnd container position0 j))
    /\ (Utils.isInArray OutMode_eqb
          (orElse (outModes_top (opt_outModes (options this)))
             (outModes_default (opt_outModes (options this))))
          [OutMode_bounce; OutMode_bounceVertical] = false ->
        Utils.isInArray OutMode_eqb
          (orElse (outModes_bottom (opt_outModes (options this)))
             (outModes_default (opt_outModes (options this))))
          [OutMode_bounce; OutMode_bounceVertical] = false ->
        vy pos = cy (exactAt rnd container position0 j)).
Proof.
  intros Hp Hres.
  destruct (calcPosition_returns_attempt this rnd container position0 zIndex
              Hp fuel 0 pos Hres) as (j & _ & -> & _).
  exists j. unfold attempt, candidate, exactAt. split.
  - intros Hl Hr.
    rewrite (proj2 (fixVertical_step _ _ _ _)).
    rewrite (proj2 (fixVertical_step _ _ _ _)).
    rewrite (fixHorizontal_unchecked _ _ _ _ Hr).
    rewrite (fixHorizontal_unchecked _ _ _ _ Hl). reflexivity.
  - intros Ht Hb.
    rewrite (fixVertical_unchecked _ _ _ _ Hb).
    rewrite (fixVertical_unchecked _ _ _ _ Ht).
    rewrite (proj2 (fixHorizontal_step _ _ _ _)).
    rewrite (proj2 (fixHorizontal_step _ _ _ _)). reflexivity.
Qed.

(** X2.  Placement moves no coordinate that is two radii or more from
    both edges of its axis, whatever the out modes.  The position a
    placement returns without a plugin is the candidate of one of its
    attempts, the one its overlap check let pass; if the explicit or
    sampled x of that attempt is two radii or more from the left and the
    right edge, it is the x of the position returned, and likewise y with
    the top and the bottom edge. *)
Theorem placement_keeps_interior this rnd container position0 zIndex fuel
    (pos : Vector3d) :
  (forall position, pluginPosition (plugins container) position this = None) ->
  calcPosition fuel this rnd container position0 zIndex 0 = Returned pos ->
  exists j,
    pos = attempt this rnd container position0 zIndex j
    /\ checkOverlap this container pos j = Returned false
    /\ (getRadius this * 2 <= cx (exactAt rnd container position0 j) ->
        cx (exactAt rnd container position0 j)
        <= width (canvas_size container) - getRadius this * 2 ->
        vx pos = cx (exactAt rnd container position0 j))
    /\ (getRadius this * 2 <= cy (exactAt rnd container position0 j) ->
        cy (exactAt rnd container position0 j)
        <= height (canvas_size container) - getRadius this * 2 ->
        vy pos = cy (exactAt rnd container position0 j)).
Proof.
  intros Hp Hres.
  destruct (calcPosition_returns_attempt this rnd container position0 zIndex
              Hp fuel 0 pos Hres) as (j & _ & Hpos & Hfree).
  exists j. split; [exact Hpos|]. split; [exact Hfree|].
  rewrite Hpos. clear Hpos Hfree Hres pos.
  unfold attempt, candidate, exactAt. split.
  - intros Hlo Hhi.
    rewrite (proj2 (fixVertical_step _ _ _ _)).
    rewrite (proj2 (fixVertical_step _ _ _ _)).
    rewrite (fixHorizontal_interior container _ _
               (Vector3d_.create _ _ zIndex)) by assumption.
    rewrite fixHorizontal_interior by assumption. reflexivity.
  - intros Hlo Hhi.
    set (p2 := fixHorizontal container _ _ (fixHorizontal container _ _ _)).
    assert (Hy : vy p2 = cy (NumberUtils.calcExactPositionOrRandomFromSize
                               (canvas_size container)
                               (positionAt position0 j) (u_position rnd j))).
    { subst p2.
      rewrite (proj2 (fixHorizontal_step _ _ _ _)).
      rewrite (proj2 (fixHorizontal_step _ _ _ _)). reflexivity. }
    rewrite (fixVertical_interior container _ _ p2) by (rewrite Hy; assumption).
    rewrite fixVertical_interior by (rewrite Hy; assumption).
    exact Hy.
Qed.

(** X3.  With out-mode "bounce" on all four edges, a radius that is not
    negative and a canvas of at least five radii in width and height, a
    position that no plugin supplied and that starts on the canvas (an
    explicit position on the canvas, draws in the unit interval) is
    returned at least two radii inside every edge. *)
Theorem bounce_placement_inside this rnd container position0 zIndex fuel
    (pos : Vector3d) :
  (forall position, pluginPosition (plugins container) position this = None) ->
  orElse (outModes_left (opt_outModes (options this)))
    (outModes_default (opt_outModes (options this))) = OutMode_bounce ->
  orElse (outModes_right (opt_outModes (options this)))
    (outModes_default (opt_outModes (options this))) = OutMode_bounce ->
  orElse (outModes_top (opt_outModes (options this)))
    (outModes_default (opt_outModes (options this))) = OutMode_bounce ->
  orElse (outModes_bottom (opt_outModes (options this)))
    (outModes_default (opt_outModes (options this))) = OutMode_bounce ->
  0 <= getRadius this ->
  getRadius this * 5 <= width (canvas_size container) ->
  getRadius this * 5 <= height (canvas_size container) ->
  match position0 with Some p => onCanvas container p | None => True end ->
  (forall j, JSNum.unit_draw (fst (u_position rnd j))
             /\ JSNum.unit_draw (snd (u_position rnd j))) ->
  calcPosition fuel this rnd container position0 zIndex 0 = Returned pos ->
  getRadius this * 2 <= vx pos
  /\ vx pos <= width (canvas_size container) - getRadius this * 2
  /\ getRadius this * 2 <= vy pos
  /\ vy pos <= height (canvas_size container) - getRadius this * 2.
Proof.
  intros Hp Hl Hr Ht Hb Hr0 Hw Hh Hexplicit Hdraws Hres.
  destruct (calcPosition_returns_attempt this rnd container position0 zIndex
              Hp fuel 0 pos Hres) as (j & _ & -> & _).
  assert (Hon : onCanvas container (exactAt rnd container position0 j)).
  { apply exactAt_onCanvas; try assumption; lra. }
  destruct Hon as (Hx0 & Hxw & Hy0 & Hyh).
  unfold exactAt in *. unfold attempt, candidate.
  rewrite Hl, Hr, Ht, Hb.
  set (exact := NumberUtils.calcExactPositionOrRandomFromSize _ _ _) in *.
  set (r := getRadius this) in *.
  set (p0 := Vector3d_.create (cx exact) (cy exact) zIndex).
  set (p1 := fixHorizontal container r OutMode_bounce p0).
  set (p2 := fixHorizontal container r OutMode_bounce p1).
  set (p3 := fixVertical container r OutMode_bounce p2).
  set (p4 := fixVertical container r OutMode_bounce p3).
  destruct (fixHorizontal_bounce container r p0) as (X1 & Y1 & _).
  destruct (fixHorizontal_bounce container r p1) as (X2 & Y2 & _).
  destruct (fixVertical_bounce container r p2) as (Y3 & X3 & _).
  destruct (fixVertical_bounce container r p3) as (Y4 & X4 & _).
  fold p1 in X1, Y1, X2, Y2. fold p2 in X2, Y2, Y3, X3.
  fold p3 in Y3, X3, Y4, X4. fold p4 in Y4, X4.
  change (vx p0) with (cx exact) in X1.
  assert (Hy2 : vy p2 = cy exact) by (rewrite Y2, Y1; reflexivity).
  rewrite Hy2 in Y3.
  replace (vx p4) with (vx p2) by congruence.
  destruct (edgeCheck_twice_inside _ r (cx exact) (vx p1) (vx p2)
              X1 X2 Hr0 Hw Hx0 Hxw) as [Ha Hb'].
  destruct (edgeCheck_twice_inside _ r (cy exact) (vy p3) (vy p4)
              Y3 Y4 Hr0 Hh Hy0 Hyh) as [Hc Hd].
  repeat split; assumption.
Qed.

(** X5.  [calcPosition] never touches z: whatever it returns, from a
    plugin, from the first attempt or from a retry, lies at the z index
    it was given. *)
Theorem calcPosition_keeps_z this rnd container zIndex :
  forall fuel position tryCount (pos : Vector3d),
    calcPosition fuel this rnd container position zIndex tryCount
    = Returned pos ->
    vz pos = zIndex.
Proof.
  induction fuel as [|fuel IH]; intros position k pos; [discriminate|].
  cbn [calcPosition].
  destruct (pluginPosition _ _ _) as [p|].
  - intros H. injection H as <-. reflexivity.
  - destruct (checkOverlap _ _ _ _) as [[|]| |]; try discriminate.
    + apply IH.
    + intros H. injection H as <-. unfold candidate.
      rewrite !fixVertical_z, !fixHorizontal_z. reflexivity.
Qed.

(** A placement that throws, from the try [k] on. *)
Lemma calcPosition_thrown_from this rnd container zIndex (message : string) :
  forall fuel position k,
    calcPosition fuel this rnd container position zIndex k = Thrown message ->
    message = PlacementExhausted
    /\ collisions_enable (opt_collisions (options this)) = true
    /\ overlap_enable (collisions_overlap (opt_collisions (options this)))
       = false
    /\ (0 <= overlap_retries
               (collisions_overlap (opt_collisions (options this)))
         < Z.of_nat (k + fuel))%Z
    /\ ((overlap_retries
           (collisions_overlap (opt_collisions (options this)))
         < Z.of_nat k)%Z
        \/ array (particles container) <> []).
Proof.
  induction fuel as [|fuel IH]; intros position k; [discriminate|].
  cbn [calcPosition].
  destruct (pluginPosition _ _ _); [discriminate|].
  destruct (checkOverlap _ _ _ _) as [[|]| |] eqn:E; try discriminate.
  - intros H. destruct (IH _ _ H) as (Hm & Hc & Ho & Hr & _).
    repeat split; try assumption; try lia.
    right. exact (checkOverlap_rejects _ _ _ _ E).
  - intros H. injection H as ->.
    destruct (checkOverlap_thrown _ _ _ _ _ E) as (Hm & Hc & Ho & Hr).
    repeat split; try assumption; lia.
Qed.

(** The first try is let pass where there is nothing to collide with. *)
Lemma checkOverlap_first_free this container (pos : Vector3d) :
  collisions_enable (opt_collisions (options this)) = false
  \/ overlap_enable (collisions_overlap (opt_collisions (options this)))
     = true
  \/ array (particles container) = [] ->
  checkOverlap this container pos 0 = Returned false.
Proof.
  intros H. unfold checkOverlap.
  destruct (collisions_enable _) eqn:Ec; [|reflexivity].
  destruct (overlap_enable _) eqn:Eo; [reflexivity|].
  destruct H as [H|[H|H]]; try congruence.
  rewrite H. cbn [negb existsb].
  destruct (Z.geb_spec (overlap_retries (collisions_overlap
              (opt_collisions (options this)))) 0) as [Hge|Hlt];
    [|reflexivity].
  destruct (Z.gtb_spec (Z.of_nat 0) (overlap_retries (collisions_overlap
              (opt_collisions (options this))))) as [Hgt|Hle];
    [lia|reflexivity].
Qed.

(** X6.  When the placement error is raised.  A placement started at
    try 0 ends in the error "Particle is overlapping and can't be placed"
    only when no plugin supplied the first position, collision detection
    is enabled, overlap is disallowed, the retry limit is not negative
    and below the number of calls made, and the container holds a
    particle: never with a negative limit, never in an empty container.
    (What a [particlePosition] hook raises itself is the hook's, not the
    placement's.) *)
Theorem placement_error_conditions this rnd container position0 zIndex fuel :
  calcPosition fuel this rnd container position0 zIndex 0
  = Thrown PlacementExhausted ->
  pluginPosition (plugins container) position0 this = None
  /\ collisions_enable (opt_collisions (options this)) = true
  /\ overlap_enable (collisions_overlap (opt_collisions (options this)))
     = false
  /\ (0 <= overlap_retries
             (collisions_overlap (opt_collisions (options this)))
       < Z.of_nat fuel)%Z
  /\ array (particles container) <> [].
Proof.
  intros H.
  destruct (calcPosition_thrown_from _ _ _ _ _ _ _ _ H)
    as (_ & Hc & Ho & Hr & Harr).
  split.
  { destruct fuel as [|fuel]; [discriminate H|]. cbn [calcPosition] in H.
    destruct (pluginPosition _ _ _); [discriminate H|reflexivity]. }
  repeat split; try assumption; try lia.
  destruct Harr as [Hneg|Harr]; [lia|exact Harr].
Qed.

(** X7.  Where there is nothing to collide with, the first call of a
    placement returns: with collision detection disabled, or overlap
    allowed, or no particle in the container, [calcPosition] gives the
    position of the first answering plugin or, without one, the first
    candidate, for every retry limit. *)
Theorem calcPosition_first_call_returns this rnd container position zIndex
    fuel :
  collisions_enable (opt_collisions (options this)) = false
  \/ overlap_enable (collisions_overlap (opt_collisions (options this)))
     = true
  \/ array (particles container) = [] ->
  calcPosition (S fuel) this rnd container position zIndex 0
  = Returned
      match pluginPosition (plugins container) position this with
      | Some p => Vector3d_.create (cx p) (cy p) zIndex
      | None => candidate container this position zIndex (u_position rnd 0)
      end.
Proof.
  intros H. cbn [calcPosition].
  destruct (pluginPosition _ _ _); [reflexivity|].
  rewrite checkOverlap_first_free by exact H. reflexivity.
Qed.

(** X4.  What placement returns is on the canvas.  When no plugin
    supplies the position, the radius is not negative, the canvas is at
    least two radii wide and high, an explicit position lies on the
    canvas and the draws are in the unit interval, a particle that sits
    where its placement returned, with the radius the placement used
    (the constructor stores the result in [position] right away), is
    inside the canvas for [isInsideCanvas], whatever the out modes and
    however many retries the placement took; so [isVisible] holds of it
    exactly when it is neither destroyed nor spawning. *)
Theorem placement_inside_canvas this rnd container position0 zIndex fuel
    (placed : Particle) :
  (forall position, pluginPosition (plugins container) position this = None) ->
  0 <= getRadius this ->
  getRadius this * 2 <= width (canvas_size container) ->
  getRadius this * 2 <= height (canvas_size container) ->
  match position0 with Some p => onCanvas container p | None => True end ->
  (forall j, JSNum.unit_draw (fst (u_position rnd j))
             /\ JSNum.unit_draw (snd (u_position rnd j))) ->
  calcPosition fuel this rnd container position0 zIndex 0
  = Returned (position placed) ->
  getRadius placed = getRadius this ->
  isInsideCanvas container placed = true
  /\ isVisible container placed
     = negb (destroyed placed) && negb (spawning placed).
Proof.
  intros Hp Hr Hw Hh Hexplicit Hdraws Hplace Hradius.
  assert (Hin : isInsideCanvas container placed = true).
  { destruct (calcPosition_returns_attempt this rnd container position0
                zIndex Hp fuel 0 _ Hplace) as (j & _ & Hpos & _).
    unfold isInsideCanvas. rewrite Hpos, Hradius. unfold attempt.
    destruct (candidate_steps container this (positionAt position0 j)
                zIndex (u_position rnd j))
      as ((x1 & X1 & X2) & (y1 & Y1 & Y2)).
    assert (Hon : onCanvas container (exactAt rnd container position0 j)).
    { apply exactAt_onCanvas; try assumption; lra. }
    destruct Hon as (Hx0 & Hxw & Hy0 & Hyh). unfold exactAt in *.
    destruct (edgeStep_twice_near _ _ _ _ _ X1 X2 Hr Hw Hx0 Hxw)
      as [Hxa Hxb].
    destruct (edgeStep_twice_near _ _ _ _ _ Y1 Y2 Hr Hh Hy0 Hyh)
      as [Hya Hyb].
    apply JSNumFacts.geb_ge in Hxa. apply JSNumFacts.geb_ge in Hya.
    apply Qle_bool_iff in Hxb. apply Qle_bool_iff in Hyb.
    rewrite Hxa, Hya, Hxb, Hyb. reflexivity. }
  split; [exact Hin|].
  unfold isVisible. rewrite Hin. apply andb_true_r.
Qed.

End PlacementFacts.

(* ------------------------------------------------------------------ *)
(** ** More on destruction, split and reset *)

Section DestructionFacts.

Context {Overrides : Type}.
Local Abbreviation Particle := (@Particle Overrides).
Local Abbreviation Container := (@Container Overrides).

Implicit Types (this : Particle) (container : Container) (rnd : Random)
  (override : option bool).

Lemma split_requests rnd this :
  snd (split rnd this) =
  if withinSplitLimit this
  then
    repeat
      (Ev_addSplitParticle (fst (split rnd this))
         (match split_particles (destroy_split (opt_destroy (options this)))
          with
          | Some (Multiple l) =>
              Utils.itemFromArray l None false (u_splitParticles rnd)
          | Some (Single o) => Some o
          | None => None
          end))
      (loopCount
         (NumberUtils.getValue
            (split_rate (destroy_split (opt_destroy (options this))))
            (u_splitRate rnd)))
  else [].
Proof.
  unfold split, withinSplitLimit.
  set (count := split_count (destroy_split (opt_destroy (options this)))).
  destruct (Z.geb_spec count 0) as [Hge|Hlt];
    destruct (Z.ltb_spec count 0) as [Hneg|Hpos]; try lia; cbn [orb].
  - destruct (Z.gtb_spec (splitCount this) count) as [Hgt|Hle];
      destruct (Z.leb_spec (splitCount this) count) as [Hle'|Hgt'];
      try lia; reflexivity.
  - reflexivity.
Qed.

Lemma children_repeat (e : @Event Overrides) (n : nat) :
  isChildRequest e = true -> children (repeat e n) = n.
Proof.
  intros He. unfold children.
  induction n as [|n IH]; [reflexivity|].
  cbn [repeat filter]. rewrite He. cbn [List.length]. rewrite IH.
  reflexivity.
Qed.

Lemma destroy_events container rnd override this :
  snd (destroy container rnd override this) =
  if unbreakable this || destroyed this then []
  else
    destroyedHooks (plugins container) (marked this) override
    ++ (if orElse override false then []
        else
          match destroy_mode (opt_destroy (options this)) with
          | DestroyMode_split => snd (split rnd (marked this))
          | DestroyMode_none => []
          end).
Proof.
  destruct (unbreakable this) eqn:Hu;
    [rewrite destroy_guard by (rewrite Hu; reflexivity); reflexivity|].
  destruct (destroyed this) eqn:Hd;
    [rewrite destroy_guard by (rewrite Hu, Hd; reflexivity); reflexivity|].
  rewrite (destroy_live container rnd override this Hu Hd). cbn zeta.
  fold (marked this). cbn [orb].
  destruct (orElse override false); [cbn [snd]; rewrite app_nil_r; reflexivity|].
  destruct (destroy_mode (opt_destroy (options this)));
    cbn [snd]; [rewrite app_nil_r|]; reflexivity.
Qed.

Lemma destroy_particle container rnd override this :
  fst (destroy container rnd override this) =
  if unbreakable this || destroyed this then this
  else if orElse override false then marked this
  else
    match destroy_mode (opt_destroy (options this)) with
    | DestroyMode_split => fst (split rnd (marked this))
    | DestroyMode_none => marked this
    end.
Proof.
  destruct (unbreakable this) eqn:Hu;
    [rewrite destroy_guard by (rewrite Hu; reflexivity); reflexivity|].
  destruct (destroyed this) eqn:Hd;
    [rewrite destroy_guard by (rewrite Hu, Hd; reflexivity); reflexivity|].
  rewrite (destroy_live container rnd override this Hu Hd). cbn zeta.
  fold (marked this). cbn [orb].
  destruct (orElse override false); [reflexivity|].
  destruct (destroy_mode (opt_destroy (options this))); reflexivity.
Qed.

(** X8.  [destroy] writes three fields and no other: whatever the
    arguments and the options, the particle it leaves differs from the
    one it was called on in [destroyed], [bubble.inRange] and
    [splitCount] at most; identity, options, shape, size and opacity
    state, bubble radius, position and the flags [unbreakable],
    [misplaced] and [spawning] are as before. *)
Theorem destroy_frame container rnd override this :
  id (fst (destroy container rnd override this)) = id this
  /\ group (fst (destroy container rnd override this)) = group this
  /\ fill (fst (destroy container rnd override this)) = fill this
  /\ close (fst (destroy container rnd override this)) = close this
  /\ lastPathTime (fst (destroy container rnd override this))
     = lastPathTime this
  /\ unbreakable (fst (destroy container rnd override this))
     = unbreakable this
  /\ misplaced (fst (destroy container rnd override this)) = misplaced this
  /\ retina (fst (destroy container rnd override this)) = retina this
  /\ shape (fst (destroy container rnd override this)) = shape this
  /\ shapeData (fst (destroy container rnd override this)) = shapeData this
  /\ options (fst (destroy container rnd override this)) = options this
  /\ size (fst (destroy container rnd override this)) = size this
  /\ opacity (fst (destroy container rnd override this)) = opacity this
  /\ bubble_radius (bubble (fst (destroy container rnd override this)))
     = bubble_radius (bubble this)
  /\ position (fst (destroy container rnd override this)) = position this
  /\ initialPosition (fst (destroy container rnd override this))
     = initialPosition this
  /\ spawning (fst (destroy container rnd override this)) = spawning this.
Proof.
  rewrite destroy_particle.
  destruct (unbreakable this || destroyed this); [repeat split|].
  destruct (orElse override false); [repeat split|].
  destruct (destroy_mode (opt_destroy (options this))); [repeat split|].
  rewrite split_particle.
  destruct (split_count _ >=? 0)%Z; repeat split.
Qed.

(** The calls of the hooks: one per plugin that has the hook, in the
    order of the plugins. *)
Lemma destroyedHooks_calls (registered : list (string * IContainerPlugin))
    this override :
  destroyedHooks registered this override
  = map (fun entry : string * IContainerPlugin =>
           Ev_particleDestroyed (fst entry) this override)
      (filter (fun entry : string * IContainerPlugin =>
                 particleDestroyed (snd entry))
         registered).
Proof.
  unfold destroyedHooks.
  induction registered as [|[name plugin] rest IH]; [reflexivity|].
  cbn [flat_map filter fst snd].
  destruct (particleDestroyed plugin); cbn [app map fst]; rewrite IH;
    reflexivity.
Qed.

(** X9.  The hooks of a destruction.  On a particle that is neither
    unbreakable nor destroyed, what [destroy] does to its collaborators
    is, in this order: one call of [particleDestroyed] for each plugin
    of the container that has the hook, every such plugin once and in
    the order of registration, then the requests for children and
    nothing else.  Each hook call is handed the override argument as it
    came and the particle already marked ([destroyed] true,
    [bubble.inRange] false) with its split count not yet raised.  On an
    unbreakable or destroyed particle it calls nothing. *)
Theorem destroy_hooks container rnd override this :
  (unbreakable this || destroyed this = true ->
   snd (destroy container rnd override this) = [])
  /\ (unbreakable this || destroyed this = false ->
      exists p requests,
        snd (destroy container rnd override this)
        = map (fun entry : string * IContainerPlugin =>
                 Ev_particleDestroyed (fst entry) p override)
            (filter (fun entry : string * IContainerPlugin =>
                       particleDestroyed (snd entry))
               (plugins container))
          ++ requests
        /\ forallb isChildRequest requests = true
        /\ destroyed p = true /\ inRange (bubble p) = false
        /\ splitCount p = splitCount this
        /\ p = marked this).
Proof.
  rewrite destroy_events. split; intros Hguard; rewrite Hguard;
    [reflexivity|].
  exists (marked this). eexists.
  split; [rewrite destroyedHooks_calls; reflexivity|].
  split; [|repeat split].
  destruct (orElse override false); [reflexivity|].
  destruct (destroy_mode (opt_destroy (options this))); [reflexivity|].
  rewrite split_requests.
  destruct (withinSplitLimit (marked this)); [|reflexivity].
  apply forallb_forall. intros e He. apply repeat_spec in He.
  subst e. reflexivity.
Qed.

Lemma destroy_children_count container rnd override this :
  children (snd (destroy container rnd override this))
  = (if negb (unbreakable this || destroyed this)
        && negb (orElse override false)
        && match destroy_mode (opt_destroy (options this)) with
           | DestroyMode_split => true
           | DestroyMode_none => false
           end
        && withinSplitLimit this
     then
       loopCount
         (NumberUtils.getValue
            (split_rate (destroy_split (opt_destroy (options this))))
            (u_splitRate rnd))
     else 0%nat).
Proof.
  rewrite destroy_events.
  destruct (unbreakable this || destroyed this); [reflexivity|].
  rewrite children_app, children_destroyedHooks. cbn [negb andb].
  destruct (orElse override false); [reflexivity|].
  destruct (destroy_mode (opt_destroy (options this))); [reflexivity|].
  cbn [negb andb]. rewrite split_requests.
  change (withinSplitLimit (marked this)) with (withinSplitLimit this).
  destruct (withinSplitLimit this); [|reflexivity].
  apply children_repeat. reflexivity.
Qed.

(** X10.  The fan-out of a destruction.  [destroy] requests children
    only from a particle that is neither unbreakable nor destroyed, on a
    call that is not an override, in destroy mode split, and while the
    split limit is negative or not below the split count; it then
    requests as many as the least whole number that is not below the
    rate, none for a rate of zero or less; and every request names the
    particle as parent, already marked destroyed. *)
Theorem destroy_children container rnd override this :
  children (snd (destroy container rnd override this))
  = (if negb (unbreakable this || destroyed this)
        && negb (orElse override false)
        && match destroy_mode (opt_destroy (options this)) with
           | DestroyMode_split => true
           | DestroyMode_none => false
           end
        && withinSplitLimit this
     then
       loopCount
         (NumberUtils.getValue
            (split_rate (destroy_split (opt_destroy (options this))))
            (u_splitRate rnd))
     else 0%nat)
  /\ (NumberUtils.getValue
        (split_rate (destroy_split (opt_destroy (options this))))
        (u_splitRate rnd) <= 0 ->
      children (snd (destroy container rnd override this)) = 0%nat)
  /\ forall parent splitOptions,
       In (Ev_addSplitParticle parent splitOptions)
         (snd (destroy container rnd override this)) ->
       id parent = id this /\ destroyed parent = true
       /\ parent = fst (destroy container rnd override this).
Proof.
  pose proof (destroy_children_count container rnd override this)
    as Hcount.
  split; [exact Hcount|]. split.
  - intros Hrate. rewrite Hcount.
    destruct (_ && _)%bool; [|reflexivity].
    unfold loopCount.
    assert (Hc : (Qceiling (NumberUtils.getValue
                    (split_rate (destroy_split (opt_destroy (options this))))
                    (u_splitRate rnd)) <= 0)%Z).
    { change 0%Z with (Qceiling 0). apply Qceiling_resp_le. exact Hrate. }
    destruct (Qceiling _); try reflexivity; lia.
  - intros parent splitOptions Hin.
    rewrite destroy_events in Hin. rewrite destroy_particle.
    destruct (unbreakable this || destroyed this); [destruct Hin|].
    apply in_app_or in Hin. destruct Hin as [Hin|Hin].
    { exfalso. unfold destroyedHooks in Hin.
      apply in_flat_map in Hin. destruct Hin as (entry & _ & Hin).
      destruct (particleDestroyed (snd entry)); [|destruct Hin].
      destruct Hin as [Heq|[]]. discriminate Heq. }
    destruct (orElse override false); [destruct Hin|].
    destruct (destroy_mode (opt_destroy (options this))); [destruct Hin|].
    rewrite split_requests in Hin.
    destruct (withinSplitLimit (marked this)); [|destruct Hin].
    apply repeat_spec in Hin. injection Hin as -> _.
    rewrite split_particle.
    destruct (split_count _ >=? 0)%Z; repeat split.
Qed.

Lemma destroy_inside_same container rnd override this :
  isInsideCanvas container (fst (destroy container rnd override this))
  = isInsideCanvas container this
  /\ spawning (fst (destroy container rnd override this)) = spawning this.
Proof.
  rewrite destroy_particle.
  destruct (unbreakable this || destroyed this); [split; reflexivity|].
  destruct (orElse override false); [split; reflexivity|].
  destruct (destroy_mode (opt_destroy (options this))); [split; reflexivity|].
  rewrite split_particle.
  destruct (split_count _ >=? 0)%Z; split; reflexivity.
Qed.

(** X11.  A destroyed particle is not visible: after [destroy] a
    particle is visible exactly when it was visible before and is
    unbreakable; in particular a breakable particle is never visible
    after the call, and the visibility of an unbreakable one does not
    change. *)
Theorem destroy_hides container rnd override this :
  isVisible container (fst (destroy container rnd override this))
  = isVisible container this && unbreakable this.
Proof.
  destruct (destroy_inside_same container rnd override this) as [Hin Hsp].
  unfold isVisible. rewrite Hin, Hsp, destroy_destroyed.
  destruct (destroyed this), (unbreakable this), (spawning this);
    cbn [negb andb orb]; try reflexivity;
    rewrite ?andb_true_r, ?andb_false_r; reflexivity.
Qed.

(** X12.  [reset] clears the loop counts and nothing else.  Afterwards
    the loops of the size animation, and of the opacity animation if
    there is one, are 0, and a second [reset] changes nothing.  Every
    other member of the size and of the opacity state (enable, value,
    max, min, maxLoops, status, decay, velocity) and every other field of
    the particle (id, group, fill, close, lastPathTime, destroyed,
    unbreakable, splitCount, misplaced, retina, shape, shapeData,
    options, bubble, position, initialPosition, spawning) is as before;
    so the radius, the visibility and what a destruction of the particle
    does to its flags and requests from the set are what they were
    without the reset. *)
Theorem reset_clears_loops_only container rnd override this :
  loops (size (reset this)) = 0%Z
  /\ (forall o, opacity (reset this) = Some o -> loops o = 0%Z)
  /\ (opacity (reset this) = None <-> opacity this = None)
  /\ reset (reset this) = reset this
  /\ getRadius (reset this) = getRadius this
  /\ isVisible container (reset this) = isVisible container this
  /\ destroyed (fst (destroy container rnd override (reset this)))
     = destroyed (fst (destroy container rnd override this))
  /\ splitCount (fst (destroy container rnd override (reset this)))
     = splitCount (fst (destroy container rnd override this))
  /\ children (snd (destroy container rnd override (reset this)))
     = children (snd (destroy container rnd override this))
  /\ sameButLoops (size (reset this)) (size this)
  /\ (forall o, opacity this = Some o ->
        exists o', opacity (reset this) = Some o' /\ sameButLoops o' o)
  /\ id (reset this) = id this
  /\ group (reset this) = group this
  /\ fill (reset this) = fill this
  /\ close (reset this) = close this
  /\ lastPathTime (reset this) = lastPathTime this
  /\ destroyed (reset this) = destroyed this
  /\ unbreakable (reset this) = unbreakable this
  /\ splitCount (reset this) = splitCount this
  /\ misplaced (reset this) = misplaced this
  /\ retina (reset this) = retina this
  /\ shape (reset this) = shape this
  /\ shapeData (reset this) = shapeData this
  /\ options (reset this) = options this
  /\ bubble (reset this) = bubble this
  /\ position (reset this) = position this
  /\ initialPosition (reset this) = initialPosition this
  /\ spawning (reset this) = spawning this.
Proof.
  assert (Hfields :
            destroyed (reset this) = destroyed this
            /\ unbreakable (reset this) = unbreakable this
            /\ options (reset this) = options this
            /\ splitCount (reset this) = splitCount this).
  { unfold reset. destruct (opacity this); repeat split. }
  destruct Hfields as (Hd & Hu & Ho & Hs).
  split; [unfold reset; destruct (opacity this); reflexivity|].
  split.
  { unfold reset. destruct (opacity this) as [o'|] eqn:E; intros o H.
    - cbn in H. injection H as <-. reflexivity.
    - cbn in H. congruence. }
  split.
  { unfold reset. destruct (opacity this) eqn:E; split; intros H;
      cbn in *; congruence. }
  split;
    [unfold reset; destruct (opacity this) eqn:E; cbn; rewrite ?E;
     reflexivity|].
  split; [unfold reset; destruct (opacity this); reflexivity|].
  split; [unfold reset; destruct (opacity this); reflexivity|].
  split; [rewrite !destroy_destroyed, Hd, Hu; reflexivity|].
  split.
  { rewrite !destroy_particle, Hd, Hu, Ho.
    destruct (unbreakable this || destroyed this); [exact Hs|].
    destruct (orElse override false); [exact Hs|].
    destruct (destroy_mode (opt_destroy (options this))); [exact Hs|].
    rewrite !split_particle.
    change (options (marked (reset this))) with (options (reset this)).
    change (options (marked this)) with (options this). rewrite Ho.
    change (splitCount (marked (reset this)))
      with (splitCount (reset this)).
    change (splitCount (marked this)) with (splitCount this).
    destruct (split_count _ >=? 0)%Z; cbn [splitCount set_splitCount];
      rewrite ?Hs; try reflexivity.
    change (splitCount (marked (reset this)))
      with (splitCount (reset this)).
    exact Hs. }
  split.
  { rewrite !destroy_children_count.
    unfold withinSplitLimit. rewrite Hd, Hu, Ho, Hs. reflexivity. }
  split.
  { unfold reset, sameButLoops. destruct (opacity this); repeat split. }
  split.
  { intros o E. unfold reset. rewrite E. eexists.
    split; [reflexivity|]. unfold sameButLoops. repeat split. }
  unfold reset. destruct (opacity this); repeat split.
Qed.

End DestructionFacts.

(* ------------------------------------------------------------------ *)
(** ** More on construction *)

Section ConstructionFacts.

Context {Overrides : Type}.
Local Abbreviation Particle := (@Particle Overrides).
Local Abbreviation Container := (@Container Overrides).

Variable ov_shape : Overrides -> option (@IShapeOverride Overrides).
Variable loadOptions :
  @IParticlesOptions Overrides -> option Overrides
  -> @IParticlesOptions Overrides.
Variable loadShape : @IShapeOverride Overrides -> @IShape Overrides.

Local Abbreviation construct := (constructor ov_shape loadOptions loadShape).

Implicit Types (this : Particle) (container : Container) (rnd : Random).

(** The placement inside a construction that returns, and the fields the
    constructor sets around it. *)
Lemma constructor_placed fuel rnd this_id container position0
    overrideOptions this_group c :
  construct fuel rnd this_id container position0 overrideOptions this_group
  = Returned c ->
  (exists this0 zIndex,
      calcPosition fuel this0 rnd container position0 zIndex 0
      = Returned (position (new_particle c))
      /\ options this0 = options (new_particle c)
      /\ getRadius this0 = getRadius (new_particle c))
  /\ getRadius (new_particle c) = value (size (new_particle c))
  /\ initialPosition (new_particle c) = position (new_particle c)
  /\ destroyed (new_particle c) = false
  /\ unbreakable (new_particle c) = false
  /\ spawning (new_particle c) = false
  /\ splitCount (new_particle c) = 0%Z
  /\ inRange (bubble (new_particle c)) = false
  /\ id (new_particle c) = this_id
  /\ canvas_size (new_container c) = canvas_size container
  /\ plugins (new_container c) = plugins container.
Proof.
  unfold constructor.
  destruct (initShape ov_shape loadShape rnd this_id
              (actualOptions_particles container) overrideOptions)
    as [this_shape this_shapeData].
  destruct (calcPosition _ _ _ _ _ _ _) as [pos| |] eqn:E; try discriminate.
  intros H. injection H as <-. cbn.
  split; [|destruct pos; repeat split].
  eexists. eexists. split; [exact E|]. split; reflexivity.
Qed.

(** X14.  The size a construction leaves lies within its own bounds,
    except for the random start value: for a pixel ratio that is not
    negative, a size range whose minimum does not exceed its maximum and
    a draw in the unit interval, when the size animation is disabled or
    starts at "min" or "max", [size.min <= size.value <= size.max]; the
    bounds are the ends of the range times the pixel ratio, the loop
    count is 0 and the radius of the particle is [size.value]. *)
Theorem constructed_size_within_bounds fuel rnd this_id container position0
    overrideOptions this_group c :
  construct fuel rnd this_id container position0 overrideOptions this_group
  = Returned c ->
  0 <= pixelRatio (container_retina container) ->
  NumberUtils.getRangeMin (size_value (opt_size (options (new_particle c))))
  <= NumberUtils.getRangeMax
       (size_value (opt_size (options (new_particle c)))) ->
  JSNum.unit_draw (u_sizeValue rnd) ->
  anim_enable (size_animation (opt_size (options (new_particle c)))) = false
  \/ anim_startValue (size_animation (opt_size (options (new_particle c))))
     <> StartValueType_random ->
  min (size (new_particle c)) <= value (size (new_particle c))
  /\ value (size (new_particle c)) <= max (size (new_particle c))
  /\ min (size (new_particle c))
     = NumberUtils.getRangeMin
         (size_value (opt_size (options (new_particle c))))
       * pixelRatio (container_retina container)
  /\ max (size (new_particle c))
     = NumberUtils.getRangeMax
         (size_value (opt_size (options (new_particle c))))
       * pixelRatio (container_retina container)
  /\ loops (size (new_particle c)) = 0%Z
  /\ getRadius (new_particle c) = value (size (new_particle c)).
Proof.
  intros H Hpx Hrange [Hu0 Hu1] Hstart.
  destruct (constructor_returned _ _ _ _ _ _ _ _ _ _ _ H)
    as (_ & _ & _ & _ & Hopts & Hsize & _).
  destruct (constructor_placed _ _ _ _ _ _ _ _ H) as (_ & Hradius & _).
  cbv zeta in Hopts, Hsize. rewrite <- Hopts in Hsize.
  set (opts := options (new_particle c)) in *.
  set (px := pixelRatio (container_retina container)) in *.
  assert (Hdisabled :
            NumberUtils.getRangeMin (size_value (opt_size opts)) * px
            <= NumberUtils.getRangeValue (size_value (opt_size opts))
                 (u_sizeValue rnd) * px
            /\ NumberUtils.getRangeValue (size_value (opt_size opts))
                 (u_sizeValue rnd) * px
               <= NumberUtils.getRangeMax (size_value (opt_size opts)) * px).
  { destruct (size_value (opt_size opts)) as [v|a b];
      cbn [NumberUtils.getRangeMin NumberUtils.getRangeMax
           NumberUtils.getRangeValue] in *.
    - split; apply Qle_refl.
    - unfold NumberUtils.randomInRange.
      cbn [NumberUtils.getRangeMin NumberUtils.getRangeMax].
      assert (Hsample : a <= u_sizeValue rnd * (b - a) + a
                        /\ u_sizeValue rnd * (b - a) + a <= b)
        by (split; nra).
      destruct Hsample as [Hlo Hhi].
      split; apply Qmult_le_compat_r; assumption. }
  assert (Hends :
            NumberUtils.getRangeMin (size_value (opt_size opts)) * px
            <= NumberUtils.getRangeMax (size_value (opt_size opts)) * px)
    by (apply Qmult_le_compat_r; assumption).
  assert (Hmain :
            min (size (new_particle c)) <= value (size (new_particle c))
            /\ value (size (new_particle c)) <= max (size (new_particle c))
            /\ min (size (new_particle c))
               = NumberUtils.getRangeMin (size_value (opt_size opts)) * px
            /\ max (size (new_particle c))
               = NumberUtils.getRangeMax (size_value (opt_size opts)) * px
            /\ loops (size (new_particle c)) = 0%Z).
  { rewrite Hsize. unfold initSize. fold px.
    destruct (anim_enable (size_animation (opt_size opts))) eqn:Ea.
    - destruct Hstart as [Hoff|Hstart]; [discriminate|].
      destruct (anim_startValue (size_animation (opt_size opts)));
        [| |contradiction Hstart; reflexivity];
        cbn; (split; [|split; [|split; [|split]]]);
        try reflexivity; try apply Qle_refl; exact Hends.
    - cbn. destruct Hdisabled as [Hlo Hhi].
      (split; [|split; [|split; [|split]]]);
        try reflexivity; assumption. }
  destruct Hmain as (H1 & H2 & H3 & H4 & H5).
  split; [exact H1|]. split; [exact H2|]. split; [exact H3|].
  split; [exact H4|]. split; [exact H5|exact Hradius].
Qed.

End ConstructionFacts.

(* ------------------------------------------------------------------ *)
(** ** Colours and mass: properties *)

Lemma Qfloor_unique (x : Q) (z : Z) :
  inject_Z z <= x -> x < inject_Z (z + 1) -> Qfloor x = z.
Proof.
  intros Hlo Hhi.
  pose proof (Qfloor_le x) as H1.
  assert (A : (z <= Qfloor x)%Z).
  { rewrite <- (Qfloor_Z z). apply Qfloor_resp_le. exact Hlo. }
  assert (B : (Qfloor x < z + 1)%Z).
  { rewrite Zlt_Qlt. eapply Qle_lt_trans; eassumption. }
  lia.
Qed.

Lemma Qfloor_succ (x : Q) : Qfloor (x + 1) = (Qfloor x + 1)%Z.
Proof.
  pose proof (Qfloor_le x) as Hlo. pose proof (Qlt_floor x) as Hhi.
  rewrite inject_Z_plus in Hhi. change (inject_Z 1) with 1 in Hhi.
  apply Qfloor_unique; rewrite !inject_Z_plus; change (inject_Z 1) with 1;
    lra.
Qed.

(** The parity test of [rolled], one whole number further. *)
Lemma rem2_succ (n : Z) :
  (Z.rem (n + 1) 2 =? 0)%Z = negb (Z.rem n 2 =? 0)%Z.
Proof.
  destruct (Z.eqb_spec (Z.rem (n + 1) 2) 0), (Z.eqb_spec (Z.rem n 2) 0);
    cbn; try reflexivity; exfalso; Z.quot_rem_to_equations; lia.
Qed.

Section ColourFacts.

Variables (HslAnimation AlterType : Type).
Variable getHslFromAnimation : option HslAnimation -> option IHsl.
Variable alterHsl : IHsl -> AlterType -> Q -> IHsl.
Variable PI : Q.
Hypothesis PI_positive : 0 < PI.

Local Abbreviation Colours := (ParticleColours HslAnimation AlterType).
Local Abbreviation Roll := (IParticleRoll AlterType).
Local Abbreviation fillColor :=
  (getFillColor HslAnimation AlterType getHslFromAnimation alterHsl PI).
Local Abbreviation strokeColorOf :=
  (getStrokeColor HslAnimation AlterType getHslFromAnimation alterHsl PI).
Local Abbreviation baseColor :=
  (ownColor HslAnimation AlterType getHslFromAnimation).

(** Half a turn further, the roll shows its other face. *)
Lemma rolled_half_turn (r : Roll) :
  (rolled AlterType PI (turned AlterType (halfTurn AlterType PI r) r) =? 0)%Z
  = negb (rolled AlterType PI r =? 0)%Z.
Proof.
  unfold rolled, turned, halfTurn.
  cbn [roll_angle roll_horizontal roll_vertical].
  set (a := match roll_angle AlterType r with Some a => a | None => 0 end).
  destruct (roll_horizontal AlterType r), (roll_vertical AlterType r);
    cbn [andb];
    match goal with
    | |- context [Qfloor ((?x + ?d + ?b) / ?d)] =>
        assert (E : (x + d + b) / d == (x + b) / d + 1) by (field; lra)
    end;
    rewrite (Qfloor_comp _ _ E), Qfloor_succ; apply rem2_succ.
Qed.

(** X15.  A roll shows its back every other half turn.  For a particle
    with a roll, a back colour and a fill colour of its own (the bubble
    colour, or else the colour of its animation), [getFillColor] gives
    the own colour on one face and the back colour on the other: turning
    the roll by half a turn ([Math.PI / backFactor], with exact
    arithmetic) swaps the two, and a whole turn gives the colour back. *)
Theorem roll_half_turn_flips (this : Colours) (r : Roll) (c back : IHsl) :
  roll _ _ this = Some r ->
  backColor _ _ this = Some back ->
  baseColor this = Some c ->
  ((fillColor this = Some c
    /\ fillColor
         (set_roll _ _
            (Some (turned AlterType (halfTurn AlterType PI r) r)) this)
       = Some back)
   \/ (fillColor this = Some back
       /\ fillColor
            (set_roll _ _
               (Some (turned AlterType (halfTurn AlterType PI r) r)) this)
          = Some c))
  /\ fillColor
       (set_roll _ _
          (Some (turned AlterType (halfTurn AlterType PI r)
                   (turned AlterType (halfTurn AlterType PI r) r))) this)
     = fillColor this.
Proof.
  intros Hroll Hback Hbase.
  pose proof (rolled_half_turn r) as Hhalf.
  pose proof (rolled_half_turn (turned AlterType (halfTurn AlterType PI r) r))
    as Hwhole.
  change (halfTurn AlterType PI
            (turned AlterType (halfTurn AlterType PI r) r))
    with (halfTurn AlterType PI r) in Hwhole.
  rewrite Hhalf in Hwhole.
  unfold getFillColor.
  change (baseColor (set_roll _ _ _ this)) with (baseColor this).
  cbn [set_roll backColor roll].
  rewrite Hroll, Hback, Hbase. cbn [isSome orb].
  rewrite Hwhole, Hhalf.
  destruct (rolled AlterType PI r =? 0)%Z; cbn [negb].
  - split; [left; split; reflexivity|reflexivity].
  - split; [right; split; reflexivity|reflexivity].
Qed.

(** X16.  What [getFillColor] can give.  It is undefined exactly when the
    particle has no fill colour of its own (no bubble colour and none
    from the colour animation), also when a back colour is set; without
    a roll, or with a roll that has neither a back colour nor an
    alteration, it is the own colour; and in every case it is the own
    colour, the back colour, or the own colour altered as the roll
    says. *)
Theorem fill_color_cases (this : Colours) :
  (getFillColor _ _ getHslFromAnimation alterHsl PI this = None
   <-> ownColor _ _ getHslFromAnimation this = None)
  /\ (roll _ _ this = None -> fillColor this = baseColor this)
  /\ (forall r, roll _ _ this = Some r -> backColor _ _ this = None ->
                roll_alter _ r = None -> fillColor this = baseColor this)
  /\ (forall c, baseColor this = Some c ->
        fillColor this = Some c
        \/ (exists back, backColor _ _ this = Some back
                         /\ fillColor this = Some back)
        \/ (exists r alter,
               roll _ _ this = Some r /\ roll_alter _ r = Some alter
               /\ backColor _ _ this = None
               /\ fillColor this
                  = Some (alterHsl c (alter_type _ alter)
                            (alter_value _ alter)))).
Proof.
  assert (Hcases : forall c, baseColor this = Some c ->
            fillColor this = Some c
            \/ (exists back, backColor _ _ this = Some back
                             /\ fillColor this = Some back)
            \/ (exists r alter,
                   roll _ _ this = Some r /\ roll_alter _ r = Some alter
                   /\ backColor _ _ this = None
                   /\ fillColor this
                      = Some (alterHsl c (alter_type _ alter)
                                (alter_value _ alter)))).
  { intros c Hc. unfold getFillColor. rewrite Hc.
    destruct (roll _ _ this) as [r|] eqn:Eroll; [|left; reflexivity].
    destruct (backColor _ _ this) as [back|] eqn:Eback;
      destruct (roll_alter _ r) as [alter|] eqn:Ealter;
      cbn [isSome orb];
      destruct (negb (rolled AlterType PI r =? 0)%Z);
      try (left; reflexivity);
      try (right; left; exists back; split; reflexivity).
    right. right. exists r, alter.
    split; [reflexivity|]. split; [exact Ealter|].
    split; reflexivity. }
  split.
  { split.
    - intros H. destruct (baseColor this) as [c|] eqn:E; [|reflexivity].
      destruct (Hcases c eq_refl)
        as [H1|[(back & _ & H1)|(r & alter & _ & _ & _ & H1)]]; congruence.
    - intros H. unfold getFillColor. rewrite H. reflexivity. }
  split.
  { intros H. unfold getFillColor. rewrite H.
    destruct (baseColor this); reflexivity. }
  split; [|exact Hcases].
  intros r Hr Hb Ha. unfold getFillColor. rewrite Hr, Hb, Ha.
  cbn [isSome orb]. destruct (baseColor this); reflexivity.
Qed.

(** X17.  What [getStrokeColor] gives: the bubble colour when there is
    one, else the colour of the stroke animation when it gives one, in
    both cases whatever the roll; else the fill colour.  So the stroke
    colour is defined whenever the fill colour is. *)
Theorem stroke_color_cases (this : Colours) :
  (forall b, bubble_color _ _ this = Some b -> strokeColorOf this = Some b)
  /\ (forall s, bubble_color _ _ this = None ->
                getHslFromAnimation (strokeColor _ _ this) = Some s ->
                strokeColorOf this = Some s)
  /\ (bubble_color _ _ this = None ->
      getHslFromAnimation (strokeColor _ _ this) = None ->
      strokeColorOf this = fillColor this)
  /\ (strokeColorOf this = None -> fillColor this = None)
  /\ (forall r, strokeColorOf (set_roll _ _ r this) <> strokeColorOf this ->
                bubble_color _ _ this = None
                /\ getHslFromAnimation (strokeColor _ _ this) = None).
Proof.
  unfold getStrokeColor.
  split; [intros b ->; reflexivity|].
  split; [intros s -> ->; reflexivity|].
  split; [intros -> ->; reflexivity|].
  split.
  - destruct (bubble_color _ _ this); [discriminate|].
    destruct (getHslFromAnimation (strokeColor _ _ this)); [discriminate|].
    cbn [orElseOpt]. destruct (fillColor this); [discriminate|reflexivity].
  - intros r. cbn [set_roll bubble_color strokeColor].
    destruct (bubble_color _ _ this);
      [intros H; contradiction H; reflexivity|].
    destruct (getHslFromAnimation (strokeColor _ _ this));
      [intros H; contradiction H; reflexivity|].
    split; reflexivity.
Qed.

(** X18.  The mass [getMass] gives is never negative, is zero exactly for
    a radius of zero, grows with a radius that is not negative, and is
    that of the bubble radius while the bubble interaction sets one. *)
Theorem mass_follows_radius {Overrides : Type}
    (a b : @Particle Overrides) :
  0 <= getMass PI a
  /\ (getMass PI a == 0 <-> getRadius a == 0)
  /\ (0 <= getRadius a -> getRadius a <= getRadius b ->
      getMass PI a <= getMass PI b)
  /\ (forall r, bubble_radius (bubble a) = Some r ->
                getMass PI a == r * r * PI * (1 # 2)).
Proof.
  unfold getMass, Qdiv. change (/ 2) with (1 # 2).
  assert (Hsq : forall x : Q, x ^ 2 == x * x) by (intros x; reflexivity).
  assert (Hnn : forall x : Q, 0 <= x * x * PI).
  { intros x. apply Qmult_le_0_compat; [nra|lra]. }
  split; [rewrite Hsq; pose proof (Hnn (getRadius a)); lra|].
  split.
  - rewrite Hsq. split; intros H.
    + assert (H1 : getRadius a * getRadius a * PI == 0) by lra.
      apply Qmult_integral in H1. destruct H1 as [H1|H1]; [|lra].
      apply Qmult_integral in H1. destruct H1 as [H1|H1]; exact H1.
    + rewrite H. lra.
  - split.
    + intros Ha Hab. rewrite !Hsq.
      assert (H1 : getRadius a * getRadius a <= getRadius b * getRadius b)
        by nra.
      assert (H2 : getRadius a * getRadius a * PI
                   <= getRadius b * getRadius b * PI)
        by (apply Qmult_le_compat_r; [exact H1|lra]).
      lra.
    + intros r Hr. unfold getRadius. rewrite Hr, Hsq. reflexivity.
Qed.

End ColourFacts.

(* ------------------------------------------------------------------ *)
(** ** The overlap scan and the retry limit *)

Section OverlapFacts.

Context {Overrides : Type}.
Local Abbreviation Particle := (@Particle Overrides).
Local Abbreviation Container := (@Container Overrides).

Implicit Types (this : Particle) (container : Container) (rnd : Random).

(** A candidate depends on the particle through its radius and its out
    modes only, the scan through its radius only. *)
Lemma candidate_same container this this' position zIndex (u : Q * Q) :
  getRadius this = getRadius this' ->
  opt_outModes (options this) = opt_outModes (options this') ->
  candidate container this position zIndex u
  = candidate container this' position zIndex u.
Proof.
  intros Hr Hm. unfold candidate. rewrite Hr, Hm. reflexivity.
Qed.

Lemma overlaps_same container this this' (pos : Vector3d) :
  getRadius this = getRadius this' ->
  overlaps this container pos = overlaps this' container pos.
Proof.
  intros Hr. unfold overlaps. rewrite Hr. reflexivity.
Qed.

(** X20.  A larger retry limit never spoils a placement.  For two
    particles of the same radius and out modes, both with collision
    detection enabled and overlap disallowed and without a plugin
    position, the second with a retry limit that is negative (no limit)
    or not below the limit of the first, itself not negative: whatever
    position the placement of the first returns, the placement of the
    second returns the same. *)
Theorem more_retries_same_position this this' rnd container position0
    zIndex :
  getRadius this = getRadius this' ->
  opt_outModes (options this) = opt_outModes (options this') ->
  collisions_enable (opt_collisions (options this)) = true ->
  overlap_enable (collisions_overlap (opt_collisions (options this))) = false ->
  collisions_enable (opt_collisions (options this')) = true ->
  overlap_enable (collisions_overlap (opt_collisions (options this')))
  = false ->
  (forall position, pluginPosition (plugins container) position this = None) ->
  (forall position, pluginPosition (plugins container) position this' = None) ->
  (overlap_retries (collisions_overlap (opt_collisions (options this'))) < 0
   \/ 0 <= overlap_retries
             (collisions_overlap (opt_collisions (options this)))
        <= overlap_retries
             (collisions_overlap (opt_collisions (options this'))))%Z ->
  forall fuel (pos : Vector3d),
    calcPosition fuel this rnd container position0 zIndex 0 = Returned pos ->
    calcPosition fuel this' rnd container position0 zIndex 0 = Returned pos.
Proof.
  intros Hr Hm Hc Ho Hc' Ho' Hp Hp' Hmore.
  assert (Hgen : forall fuel k (pos : Vector3d),
             calcPosition fuel this rnd container (positionAt position0 k)
               zIndex k = Returned pos ->
             calcPosition fuel this' rnd container (positionAt position0 k)
               zIndex k = Returned pos).
  { induction fuel as [|fuel IH]; intros k pos; [discriminate|].
    rewrite !calcPosition_step by (apply Hp || apply Hp').
    unfold attempt.
    rewrite <- (candidate_same container this this' _ _ _ Hr Hm).
    rewrite !checkOverlap_scan by assumption.
    rewrite <- (overlaps_same container this this' _ Hr).
    set (n := overlap_retries (collisions_overlap
                 (opt_collisions (options this)))) in *.
    set (n' := overlap_retries (collisions_overlap
                  (opt_collisions (options this')))) in *.
    destruct (Z.geb_spec n 0) as [Hn|Hn];
      destruct (Z.gtb_spec (Z.of_nat k) n) as [Hk|Hk];
      cbn [andb]; try discriminate;
      (destruct (Z.geb_spec n' 0) as [Hn'|Hn'];
       destruct (Z.gtb_spec (Z.of_nat k) n') as [Hk'|Hk'];
       cbn [andb]; try lia);
      destruct (overlaps this container _); try (apply IH);
      intros H; exact H. }
  intros fuel pos. exact (Hgen fuel 0%nat pos).
Qed.

End OverlapFacts.

(* ------------------------------------------------------------------ *)
(** ** The further properties, evaluated *)

(** Decides a closed comparison of rationals, or a conjunction of such. *)
Ltac qdecide := vm_compute; repeat split; (discriminate || reflexivity).

Lemma placement_moves_bounce_axes_only_witness :
  exists pos,
    calcPosition 2 (Scenario.newcomer 1) Scenario.centred
      (Scenario.crowd 1 [("listener"%string, Scenario.listening)]) None 0 0
    = Returned pos
    /\ vx pos == 400 /\ vy pos == 300.
Proof.
  destruct (calcPosition 2 (Scenario.newcomer 1) Scenario.centred
              (Scenario.crowd 1 [("listener"%string, Scenario.listening)])
              None 0 0) as [pos| |] eqn:E;
    [|vm_compute in E; discriminate E ..].
  exists pos. split; [reflexivity|].
  destruct (placement_moves_bounce_axes_only (Scenario.newcomer 1)
              Scenario.centred
              (Scenario.crowd 1 [("listener"%string, Scenario.listening)])
              None 0 2 pos (fun _ => eq_refl) E) as (j & Hx & Hy).
  rewrite (Hx eq_refl eq_refl), (Hy eq_refl eq_refl).
  destruct j; split; reflexivity.
Defined.

Lemma placement_keeps_interior_witness :
  exists pos,
    calcPosition 1 Scenario.bouncer Scenario.centred Scenario.canvas None 0 0
    = Returned pos
    /\ vx pos == 400 /\ vy pos == 300.
Proof.
  destruct (calcPosition 1 Scenario.bouncer Scenario.centred Scenario.canvas
              None 0 0) as [pos| |] eqn:E;
    [|vm_compute in E; discriminate E ..].
  exists pos. split; [reflexivity|].
  destruct (placement_keeps_interior Scenario.bouncer Scenario.centred
              Scenario.canvas None 0 1 pos (fun _ => eq_refl) E)
    as (j & _ & _ & Hx & Hy).
  rewrite Hx, Hy; destruct j; qdecide.
Defined.

Lemma bounce_placement_inside_witness :
  10 * 2 <= 20 /\ 20 <= 800 - 10 * 2 /\ 10 * 2 <= 20 /\ 20 <= 600 - 10 * 2.
Proof.
  exact (bounce_placement_inside Scenario.bouncer Scenario.noDraws
           Scenario.canvas Scenario.corner 0 1 (Vector3d_.create 20 20 0)
           (fun _ => eq_refl) eq_refl eq_refl eq_refl eq_refl
           ltac:(qdecide) ltac:(qdecide) ltac:(qdecide) ltac:(qdecide)
           (fun _ => ltac:(qdecide)) eq_refl).
Defined.

Lemma placement_inside_canvas_witness :
  isInsideCanvas Scenario.canvas
    (Scenario.mkParticle Scenario.bounceOptions 10 20 20 false 0) = true
  /\ isVisible Scenario.canvas
       (Scenario.mkParticle Scenario.bounceOptions 10 20 20 false 0) = true.
Proof.
  assert (H0 : 0 <= getRadius Scenario.bouncer) by qdecide.
  assert (Hw : getRadius Scenario.bouncer * 2
               <= width (canvas_size Scenario.canvas)) by qdecide.
  assert (Hh : getRadius Scenario.bouncer * 2
               <= height (canvas_size Scenario.canvas)) by qdecide.
  assert (Hon : onCanvas Scenario.canvas {| cx := 0; cy := 0 |}) by qdecide.
  assert (Hdraws : forall j : nat,
             JSNum.unit_draw (fst (u_position Scenario.noDraws j))
             /\ JSNum.unit_draw (snd (u_position Scenario.noDraws j)))
    by (intros j; qdecide).
  exact (placement_inside_canvas Scenario.bouncer Scenario.noDraws
           Scenario.canvas Scenario.corner 0 1
           (Scenario.mkParticle Scenario.bounceOptions 10 20 20 false 0)
           (fun _ => eq_refl) H0 Hw Hh Hon Hdraws eq_refl eq_refl).
Defined.

Lemma calcPosition_keeps_z_witness :
  vz (Vector3d_.create 7 9 3) = 3.
Proof.
  exact (calcPosition_keeps_z (Scenario.newcomer 0) Scenario.centred
           (Scenario.crowd 0 [("pin"%string, Scenario.pinning 7 9)]) 3
           1%nat None 0%nat (Vector3d_.create 7 9 3) eq_refl).
Defined.

Lemma placement_error_conditions_witness :
  collisions_enable (opt_collisions (options (Scenario.newcomer 0))) = true
  /\ array (particles
              (Scenario.crowd 0 [("listener"%string, Scenario.listening)]))
     <> [].
Proof.
  destruct (placement_error_conditions (Scenario.newcomer 0)
              Scenario.centred
              (Scenario.crowd 0 [("listener"%string, Scenario.listening)])
              Scenario.onResident 0 3 eq_refl)
    as (_ & Hc & _ & _ & Harr).
  split; [exact Hc|exact Harr].
Defined.

Lemma calcPosition_first_call_returns_witness :
  calcPosition 1 Scenario.bouncer Scenario.noDraws Scenario.canvas
    Scenario.corner 0 0
  = Returned (Vector3d_.create 20 20 0).
Proof.
  exact (calcPosition_first_call_returns Scenario.bouncer Scenario.noDraws
           Scenario.canvas Scenario.corner 0 0 (or_introl eq_refl)).
Defined.

Lemma destroy_children_witness :
  children
    (snd (destroy (Scenario.stage (Scenario.splitOptions 1))
            Scenario.noDraws None (Scenario.splitter 1 1))) = 2%nat.
Proof.
  exact (proj1 (destroy_children (Scenario.stage (Scenario.splitOptions 1))
                  Scenario.noDraws None (Scenario.splitter 1 1))).
Defined.

Lemma destroy_hooks_witness :
  exists p requests,
    snd (destroy
           (Scenario.crowd 0
              [("listener"%string, Scenario.listening);
               ("silent"%string,
                {| particlePosition := None; particleCreated := false;
                   particleDestroyed := false |});
               ("pin"%string, Scenario.pinning 7 9)])
           Scenario.noDraws None (Scenario.splitter 1 1))
    = [Ev_particleDestroyed "listener"%string p None;
       Ev_particleDestroyed "pin"%string p None] ++ requests
    /\ destroyed p = true.
Proof.
  destruct (proj2
              (destroy_hooks
                 (Scenario.crowd 0
                    [("listener"%string, Scenario.listening);
                     ("silent"%string,
                      {| particlePosition := None; particleCreated := false;
                         particleDestroyed := false |});
                     ("pin"%string, Scenario.pinning 7 9)])
                 Scenario.noDraws None (Scenario.splitter 1 1)) eq_refl)
    as (p & requests & Hev & _ & Hd & _).
  exists p, requests. split; [exact Hev|exact Hd].
Defined.

Lemma reset_clears_loops_only_witness :
  reset (reset (Scenario.splitter 1 1)) = reset (Scenario.splitter 1 1).
Proof.
  exact (proj1 (proj2 (proj2 (proj2
           (reset_clears_loops_only
              (Scenario.stage (Scenario.splitOptions 1)) Scenario.noDraws
              None (Scenario.splitter 1 1)))))).
Defined.

Lemma constructed_size_within_bounds_witness :
  exists c,
    Scenario.construct (Scenario.draws (3 # 4) (fun _ => (1 # 2, 1 # 2))) 0
      (Scenario.sized 2 StartValueType_min) None = Returned c
    /\ min (size (new_particle c)) <= value (size (new_particle c))
    /\ value (size (new_particle c)) <= max (size (new_particle c)).
Proof.
  destruct (Scenario.construct
              (Scenario.draws (3 # 4) (fun _ => (1 # 2, 1 # 2))) 0
              (Scenario.sized 2 StartValueType_min) None) as [c| |] eqn:E;
    [|vm_compute in E; discriminate E ..].
  exists c. split; [reflexivity|].
  pose proof E as E'. vm_compute in E'. injection E' as <-.
  pose proof (constructed_size_within_bounds Scenario.ov_shape
                Scenario.loadOptions Scenario.loadShape 8%nat
                (Scenario.draws (3 # 4) (fun _ => (1 # 2, 1 # 2))) 0%Z
                (Scenario.sized 2 StartValueType_min) None None None _ E)
    as T.
  match type of T with
  | ?A -> ?B -> ?C -> _ \/ ?D -> _ =>
      assert (H1 : A) by qdecide; assert (H2 : B) by qdecide;
      assert (H3 : C) by qdecide;
      assert (H4 : D) by (vm_compute; discriminate)
  end.
  destruct (T H1 H2 H3 (or_intror H4)) as (Hlo & Hhi & _).
  split; [exact Hlo|exact Hhi].
Defined.

Lemma roll_half_turn_flips_witness :
  Scenario.fillOf (Scenario.card 0) = Some Scenario.red
  /\ Scenario.fillOf (Scenario.card (0 + Scenario.pi / 1))
     = Some Scenario.blue.
Proof.
  destruct (roll_half_turn_flips IHsl unit Scenario.hslOf Scenario.lighten
              Scenario.pi ltac:(qdecide) (Scenario.card 0)
              (Scenario.rolling 0) Scenario.red Scenario.blue
              eq_refl eq_refl eq_refl)
    as [[[H1 H2]|[H1 H2]] _].
  - split; [exact H1|exact H2].
  - vm_compute in H1. discriminate H1.
Defined.

Lemma fill_color_cases_witness :
  Scenario.fillOf (Scenario.card 0) = Some Scenario.red
  \/ (exists back,
         backColor _ _ (Scenario.card 0) = Some back
         /\ Scenario.fillOf (Scenario.card 0) = Some back)
  \/ (exists r alter,
         roll _ _ (Scenario.card 0) = Some r /\ roll_alter _ r = Some alter
         /\ backColor _ _ (Scenario.card 0) = None
         /\ Scenario.fillOf (Scenario.card 0)
            = Some (Scenario.lighten Scenario.red (alter_type _ alter)
                      (alter_value _ alter))).
Proof.
  exact (proj2 (proj2 (proj2
           (fill_color_cases IHsl unit Scenario.hslOf Scenario.lighten
              Scenario.pi (Scenario.card 0)))) Scenario.red eq_refl).
Defined.

Lemma stroke_color_cases_witness :
  Scenario.strokeOf (Scenario.card 0) = Scenario.fillOf (Scenario.card 0).
Proof.
  exact (proj1 (proj2 (proj2
           (stroke_color_cases IHsl unit Scenario.hslOf Scenario.lighten
              Scenario.pi (Scenario.card 0)))) eq_refl eq_refl).
Defined.

Lemma mass_follows_radius_witness :
  getMass Scenario.pi (Scenario.resident 0)
  <= getMass Scenario.pi Scenario.bouncer.
Proof.
  exact (proj1 (proj2 (proj2
           (mass_follows_radius Scenario.pi ltac:(qdecide)
              (Scenario.resident 0) Scenario.bouncer)))
           ltac:(qdecide) ltac:(qdecide)).
Defined.

Lemma more_retries_same_position_witness :
  exists pos,
    calcPosition 3 (Scenario.newcomer 0) Scenario.centred
      (Scenario.crowd 0 [("listener"%string, Scenario.listening)]) None 0 0
    = Returned pos
    /\ calcPosition 3 (Scenario.newcomer 1) Scenario.centred
         (Scenario.crowd 0 [("listener"%string, Scenario.listening)])
         None 0 0
       = Returned pos.
Proof.
  destruct (calcPosition 3 (Scenario.newcomer 0) Scenario.centred
              (Scenario.crowd 0 [("listener"%string, Scenario.listening)])
              None 0 0) as [pos| |] eqn:E;
    [|vm_compute in E; discriminate E ..].
  exists pos. split; [reflexivity|].
  assert (Hmore :
            (overlap_retries
               (collisions_overlap
                  (opt_collisions (options (Scenario.newcomer 1)))) < 0
             \/ 0 <= overlap_retries
                       (collisions_overlap
                          (opt_collisions (options (Scenario.newcomer 0))))
                  <= overlap_retries
                       (collisions_overlap
                          (opt_collisions (options (Scenario.newcomer 1)))))%Z)
    by (right; vm_compute; split; discriminate).
  exact (more_retries_same_position (Scenario.newcomer 0)
           (Scenario.newcomer 1) Scenario.centred
           (Scenario.crowd 0 [("listener"%string, Scenario.listening)])
           None 0 eq_refl eq_refl eq_refl eq_refl eq_refl eq_refl
           (fun _ => eq_refl) (fun _ => eq_refl) Hmore 3%nat pos E).
Defined.
